(** * pos-backend: stock ledger, sale transactions and sales reports

    A shallow embedding of the inventory and sale code of the NestJS
    point-of-sale backend, and of its report service:

    - [ProductService.updateStock]        (src/service/ProductService.ts)
    - [SaleService.create], [SaleSchema]  (service/SaleService, models/SaleSchema)
    - [NewSaleController.createSale]      (Controller/NewSaleController)
    - [SalesReportService.get*Report]     (src/models/SalesReportModel.ts)

    and, in the second part of the model, of the other product routes, the
    text helpers of the receipt printer, the date-range query and the
    report controller.

    Modelling conventions.

    - A JavaScript [number] is an exact rational ([Qc]): IEEE rounding, NaN
      and infinities are not modelled.  Counts ([Array.length], [stats.sales])
      are [nat] and are injected into [number] where the code divides by them.
    - A [Date] is its time value, an integer number of milliseconds since
      the epoch ([Z]).  The host's local time zone is a fixed offset
      [tz] (milliseconds east of UTC); daylight saving is not modelled.
      The date strings of the reports are well-formed ["YYYY-MM-DD"]
      strings, kept as year, month and day.
    - The Mongo [products] collection is a finite map from the document id
      to the document; the [sales] collection is the list of saved documents
      in the order they were saved, which is also the order in which [find]
      returns them.  Product ids are well-formed object ids.
    - A JavaScript [Map] is an association list in insertion order, and
      [Array.prototype.sort] is a stable sort.
    - The code runs one request at a time (no interleaving of awaits). *)

From Stdlib Require Import QArith Qcanon Qround ZArith Lia Lqa.
From stdpp Require Import gmap strings list fin_maps numbers sorting.

Local Open Scope Z_scope.

(** ** JavaScript numbers *)

Abbreviation number := Qc (only parsing).

(** An integer literal. *)
Definition num (z : Z) : number := Q2Qc (inject_Z z).

(** [Array.length] used as a number. *)
Definition of_nat (n : nat) : number := num (Z.of_nat n).

(** ** Documents *)

(** A product variant (the array elements of [CreateProductDto.variants]). *)
Record Variant := mkVariant {
  v_id : string;
  v_color : option string;
  v_ram : option string;
  v_storage : option string;
  v_purchasedPrice : number;
  v_sellingPrice : number;
  v_stock : number
}.

(** The fields of a product document that the sale and stock code reads. *)
Record Product := mkProduct {
  p_name : string;
  p_basePrice : number;
  p_purchasedPrice : number;
  p_sellingPrice : number;
  p_variants : list Variant
}.

Record SaleItem := mkSaleItem {
  si_productId : string;
  si_quantity : number;
  si_price : number
}.

(** A saved sale; [createdAt] is set by the schema's [timestamps: true]. *)
Record Sale := mkSale {
  s_items : list SaleItem;
  s_total : number;
  s_customerName : option string;
  s_createdAt : Z
}.

(** The database: both collections. *)
Record Db := mkDb {
  products : gmap string Product;
  sales : list Sale
}.

Definition set_stock (v : Variant) (s : number) : Variant :=
  mkVariant (v_id v) (v_color v) (v_ram v) (v_storage v)
            (v_purchasedPrice v) (v_sellingPrice v) s.

Definition set_variants (p : Product) (vs : list Variant) : Product :=
  mkProduct (p_name p) (p_basePrice p) (p_purchasedPrice p) (p_sellingPrice p) vs.

Definition set_products (db : Db) (ps : gmap string Product) : Db :=
  mkDb ps (sales db).

(** ** Exceptions and the request monad *)

Inductive HttpStatus := BAD_REQUEST | NOT_FOUND | INTERNAL_SERVER_ERROR.

(** The message of an [HttpException] thrown by [createSale], with the
    values that the template string interpolates kept as data. *)
Inductive HttpMessage :=
| SaleMustContainItem
| QuantityMustBePositive
| ProductNotFound (productId : string)
| InsufficientStock (name : string) (available requested : number)
| FailedToCreateSale.

Inductive exn :=
| HttpException (msg : HttpMessage) (status : HttpStatus)
| Error (msg : string).

Inductive outcome (A : Type) :=
| Return (a : A)
| Throw (e : exn).
Arguments Return {A} a.
Arguments Throw {A} e.

(** A computation reads and writes the database and may throw; what was
    written before a throw stays written. *)
Definition M (A : Type) : Type := Db → outcome A * Db.

Definition ret {A} (a : A) : M A := λ db, (Return a, db).
Definition throw {A} (e : exn) : M A := λ db, (Throw e, db).
Definition bind {A B} (m : M A) (k : A → M B) : M B :=
  λ db, match m db with
        | (Return a, db') => k a db'
        | (Throw e, db') => (Throw e, db')
        end.
Definition try_catch {A} (m : M A) (handler : exn → M A) : M A :=
  λ db, match m db with
        | (Return a, db') => (Return a, db')
        | (Throw e, db') => handler e db'
        end.

Notation "'let*' x := m 'in' k" := (bind m (λ x, k))
  (at level 10, x binder, m at level 100, k at level 200).
Notation "'do*' m 'in' k" := (bind m (λ _, k))
  (at level 10, m at level 100, k at level 200).

(** [for (const x of l) body(x)] *)
Fixpoint for_of {A} (l : list A) (body : A → M unit) : M unit :=
  match l with
  | [] => ret tt
  | x :: rest => do* body x in for_of rest body
  end.

(** ** ProductService *)

Module ProductService.

Definition findById (id : string) : M (option Product) :=
  λ db, (Return (products db !! id), db).

(** [productModel.findByIdAndUpdate(id, { variants }, { new: true })] *)
Definition findByIdAndUpdate_variants (id : string) (vs : list Variant)
  : M (option Product) :=
  λ db, match products db !! id with
        | None => (Return None, db)
        | Some p =>
            let p' := set_variants p vs in
            (Return (Some p'), set_products db (<[id := p']> (products db)))
        end.

(** The variant made up for a product that has none. *)
Definition default_variant (product : Product) : Variant :=
  mkVariant "default" None None None
            (p_purchasedPrice product) (p_sellingPrice product) 0%Qc.

(** [product.variants] after the [if] that fills in the default variant,
    split into [variants[0]] and the rest. *)
Definition normalize (product : Product) : Variant * list Variant :=
  match p_variants product with
  | [] => (default_variant product, [])
  | v :: others => (v, others)
  end.

Definition updateStock (id : string) (stockChange : number)
  : M (option Product) :=
  let* product := findById id in
  match product with
  | None => ret None
  | Some product =>
      let '(defaultVariant, others) := normalize product in
      let newStock := (v_stock defaultVariant + stockChange)%Qc in
      if decide (newStock < 0)%Qc then throw (Error "Insufficient stock")
      else findByIdAndUpdate_variants id (set_stock defaultVariant newStock :: others)
  end.

End ProductService.

(** ** SaleService *)

Module SaleService.

(** The validators of [SaleSchema], which [save()] runs: [quantity] has
    [min: 1], [price] and [total] have [min: 0]. *)
Definition valid_item (it : SaleItem) : Prop :=
  (1 ≤ si_quantity it)%Qc ∧ (0 ≤ si_price it)%Qc.

Definition valid (sale : Sale) : Prop :=
  Forall valid_item (s_items sale) ∧ (0 ≤ s_total sale)%Qc.

#[global] Instance valid_dec sale : Decision (valid sale).
Proof. unfold valid, valid_item. apply _. Defined.

(** [new this.saleModel(saleData).save()]: a document that passes the
    validators is appended to the collection, stamped with the time of the
    save; for one that does not, [save()] rejects with a validation error. *)
Definition create (items : list SaleItem) (total : number)
  (customerName : option string) (now : Z) : M Sale :=
  λ db, let sale := mkSale items total customerName now in
        if decide (valid sale)
        then (Return sale, mkDb (products db) (sales db ++ [sale]))
        else (Throw (Error "Sale validation failed"), db).

End SaleService.

(** ** NewSaleController *)

(** An element of [CreateSaleDto.items]: a product id and a quantity, and
    nothing else. *)
Record SaleLine := mkSaleLine {
  l_productId : string;
  l_quantity : number
}.

Record CreateSaleDto := mkCreateSaleDto {
  dto_items : list SaleLine;
  dto_customerName : option string
}.

Module NewSaleController.

(** The first loop of [createSale], with its two local accumulators
    [saleItems] and [total]. *)
Fixpoint process_items (items : list SaleLine) (saleItems : list SaleItem)
  (total : number) : M (list SaleItem * number) :=
  match items with
  | [] => ret (saleItems, total)
  | item :: rest =>
      if decide (l_quantity item ≤ 0)%Qc
      then throw (HttpException QuantityMustBePositive BAD_REQUEST)
      else
        let* product := ProductService.findById (l_productId item) in
        match product with
        | None => throw (HttpException (ProductNotFound (l_productId item)) NOT_FOUND)
        | Some product =>
            let defaultVariant := head (p_variants product) in
            let price := match defaultVariant with
                         | Some v => v_sellingPrice v
                         | None => p_basePrice product
                         end in
            let stock := match defaultVariant with
                         | Some v => v_stock v
                         | None => 0%Qc
                         end in
            if decide (stock < l_quantity item)%Qc
            then throw (HttpException
                          (InsufficientStock (p_name product) stock (l_quantity item))
                          BAD_REQUEST)
            else
              let saleItem := mkSaleItem (l_productId item) (l_quantity item) price in
              process_items rest (saleItems ++ [saleItem])
                            (total + si_price saleItem * si_quantity saleItem)%Qc
        end
  end.

(** The second loop: one [updateStock] call per request line. *)
Definition update_all_stock (items : list SaleLine) : M unit :=
  for_of items (λ item,
    do* ProductService.updateStock (l_productId item) (- l_quantity item)%Qc in
    ret tt).

(** The [catch] block: an [HttpException] is rethrown, anything else
    becomes a 500. *)
Definition rethrow {A} (error : exn) : M A :=
  match error with
  | HttpException _ _ => throw error
  | Error _ => throw (HttpException FailedToCreateSale INTERNAL_SERVER_ERROR)
  end.

Definition createSale (createSaleDto : CreateSaleDto) (now : Z) : M Sale :=
  try_catch
    (match dto_items createSaleDto with
     | [] => throw (HttpException SaleMustContainItem BAD_REQUEST)
     | _ =>
         let* r := process_items (dto_items createSaleDto) [] 0%Qc in
         let '(saleItems, total) := r in
         do* update_all_stock (dto_items createSaleDto) in
         SaleService.create saleItems total (dto_customerName createSaleDto) now
     end)
    rethrow.

End NewSaleController.

(** ** The JavaScript [Date] operations the report service calls

    Written after the ECMAScript definitions (Day, TimeWithinDay,
    DayFromYear, YearFromTime, MonthFromTime, DateFromTime, MakeDay,
    MakeTime, MakeDate, LocalTime, UTC).  [tz] is the local time zone
    adjustment in milliseconds: local time = UTC time + [tz]. *)

Module JSDate.

Definition msPerDay : Z := 86400000.

Definition Day (t : Z) : Z := t / msPerDay.
Definition TimeWithinDay (t : Z) : Z := t mod msPerDay.

Definition DaysInYear (y : Z) : Z :=
  if negb (y mod 4 =? 0) then 365
  else if negb (y mod 100 =? 0) then 366
  else if negb (y mod 400 =? 0) then 365
  else 366.

Definition DayFromYear (y : Z) : Z :=
  365 * (y - 1970) + (y - 1969) / 4 - (y - 1901) / 100 + (y - 1601) / 400.

(** The largest [y] with [DayFromYear y <= day]: an estimate from the mean
    year length, corrected by at most one. *)
Definition YearFromDay (day : Z) : Z :=
  let y := 1970 + (400 * day) / 146097 in
  if DayFromYear (y + 1) <=? day then y + 1
  else if day <? DayFromYear y then y - 1
  else y.

Definition YearFromTime (t : Z) : Z := YearFromDay (Day t).
Definition InLeapYear (t : Z) : Z :=
  if DaysInYear (YearFromTime t) =? 366 then 1 else 0.
Definition DayWithinYear (t : Z) : Z := Day t - DayFromYear (YearFromTime t).

(** Day number within the year on which month [m] (0-11) starts. *)
Definition month_start (m leap : Z) : Z :=
  match m with
  | 0 => 0 | 1 => 31 | 2 => 59 + leap | 3 => 90 + leap
  | 4 => 120 + leap | 5 => 151 + leap | 6 => 181 + leap | 7 => 212 + leap
  | 8 => 243 + leap | 9 => 273 + leap | 10 => 304 + leap | _ => 334 + leap
  end.

(** The month (0-11) of day number [d] within a year, [leap] being 1 in a
    leap year and 0 otherwise. *)
Definition month_of_day (d leap : Z) : Z :=
  if d <? 31 then 0
  else if d <? 59 + leap then 1
  else if d <? 90 + leap then 2
  else if d <? 120 + leap then 3
  else if d <? 151 + leap then 4
  else if d <? 181 + leap then 5
  else if d <? 212 + leap then 6
  else if d <? 243 + leap then 7
  else if d <? 273 + leap then 8
  else if d <? 304 + leap then 9
  else if d <? 334 + leap then 10
  else 11.

Definition MonthFromTime (t : Z) : Z :=
  month_of_day (DayWithinYear t) (InLeapYear t).

Definition DateFromTime (t : Z) : Z :=
  DayWithinYear t - month_start (MonthFromTime t) (InLeapYear t) + 1.

Definition MakeTime (hour min sec ms : Z) : Z :=
  hour * 3600000 + min * 60000 + sec * 1000 + ms.

Definition MakeDay (year month date : Z) : Z :=
  let ym := year + month / 12 in
  let mn := month mod 12 in
  let leap := if DaysInYear ym =? 366 then 1 else 0 in
  DayFromYear ym + month_start mn leap + date - 1.

Definition MakeDate (day time : Z) : Z := day * msPerDay + time.

Definition LocalTime (tz t : Z) : Z := t + tz.
Definition UTC (tz t : Z) : Z := t - tz.

(** [new Date(year, month, date, hours, minutes, seconds, ms)]: the fields
    are local time; a year from 0 to 99 means 1900 + year. *)
Definition new_Date (tz year month date hours minutes seconds ms : Z) : Z :=
  let yr := if (0 <=? year) && (year <=? 99) then 1900 + year else year in
  UTC tz (MakeDate (MakeDay yr month date) (MakeTime hours minutes seconds ms)).

(** A calendar date as written in a ["YYYY-MM-DD"] string. *)
Record isodate := mkIsodate { iso_year : Z; iso_month : Z; iso_day : Z }.

#[global] Instance isodate_eq_dec : EqDecision isodate.
Proof. solve_decision. Defined.

(** The order of ["YYYY-MM-DD"] strings. *)
Definition isodate_lt (a b : isodate) : Prop :=
  iso_year a < iso_year b
  ∨ (iso_year a = iso_year b
     ∧ (iso_month a < iso_month b
        ∨ (iso_month a = iso_month b ∧ iso_day a < iso_day b))).

(** [new Date("YYYY-MM-DD")]: a date-only string is read as UTC midnight. *)
Definition parse (d : isodate) : Z :=
  MakeDate (MakeDay (iso_year d) (iso_month d - 1) (iso_day d)) 0.

(** [d.setHours(hour, min, sec, ms)], in local time. *)
Definition setHours (tz t hour min sec ms : Z) : Z :=
  UTC tz (MakeDate (Day (LocalTime tz t)) (MakeTime hour min sec ms)).

(** [d.getDate()], in local time. *)
Definition getDate (tz t : Z) : Z := DateFromTime (LocalTime tz t).

(** [d.setDate(date)], in local time. *)
Definition setDate (tz t date : Z) : Z :=
  let lt := LocalTime tz t in
  UTC tz (MakeDate (MakeDay (YearFromTime lt) (MonthFromTime lt) date)
                   (TimeWithinDay lt)).

(** [d.toISOString().split('T')[0]], in UTC. *)
Definition toISODate (t : Z) : isodate :=
  mkIsodate (YearFromTime t) (MonthFromTime t + 1) (DateFromTime t).

End JSDate.

(** ** A JavaScript [Map]: lookup by key, iteration in insertion order *)

Module JSMap.
Section JSMap.
Context {K V : Type} `{EqDecision K}.

Fixpoint get (k : K) (m : list (K * V)) : option V :=
  match m with
  | [] => None
  | (k', v) :: rest => if decide (k = k') then Some v else get k rest
  end.

(** [m.set(k, v)]: an existing key keeps its position, a new key goes last. *)
Fixpoint set (k : K) (v : V) (m : list (K * V)) : list (K * V) :=
  match m with
  | [] => [(k, v)]
  | (k', v') :: rest =>
      if decide (k = k') then (k, v) :: rest else (k', v') :: set k v rest
  end.

Definition keys (m : list (K * V)) : list K := fst <$> m.
Definition values (m : list (K * V)) : list V := snd <$> m.

End JSMap.
End JSMap.

(** ** [Array.prototype.sort(comparefn)]

    A stable sort: [a] is moved behind [b] only when [comparefn a b > 0]. *)

Module JSArray.
Section sort.
Context {A : Type} (comparefn : A → A → number).

Fixpoint insert (a : A) (l : list A) : list A :=
  match l with
  | [] => [a]
  | b :: rest =>
      if decide (0 < comparefn a b)%Qc then b :: insert a rest else a :: b :: rest
  end.

Fixpoint sort (l : list A) : list A :=
  match l with
  | [] => []
  | a :: rest => insert a (sort rest)
  end.

End sort.
End JSArray.

(** ** SalesReportService *)

Record SalesOverview := mkSalesOverview {
  ov_totalSales : nat;
  ov_totalRevenue : number;
  ov_averageOrderValue : number;
  ov_totalProducts : nat
}.

Record DailySalesReport := mkDailySalesReport {
  dr_date : JSDate.isodate;
  dr_totalSales : nat;
  dr_totalRevenue : number;
  dr_averageOrderValue : number;
  dr_sales : list Sale
}.

(** A value of the [dailyStats] map. *)
Record DayStats := mkDayStats {
  ds_sales : nat;
  ds_revenue : number
}.

(** An element of [MonthlySalesReport.dailyStats]. *)
Record DailyStat := mkDailyStat {
  dst_date : JSDate.isodate;
  dst_sales : nat;
  dst_revenue : number
}.

Record MonthlySalesReport := mkMonthlySalesReport {
  mr_month : Z;
  mr_year : Z;
  mr_totalSales : nat;
  mr_totalRevenue : number;
  mr_averageOrderValue : number;
  mr_dailyStats : list DailyStat
}.

Record ProductSalesReport := mkProductSalesReport {
  pr_productId : string;
  pr_name : string;
  pr_totalQuantitySold : number;
  pr_totalRevenue : number;
  pr_averagePrice : number
}.

Module SalesReportService.

(** [saleModel.find({ createdAt: { $gte: startDate, $lte: endDate } })] *)
Definition find_between (startDate endDate : Z) (docs : list Sale) : list Sale :=
  filter (λ sale, startDate ≤ s_createdAt sale ∧ s_createdAt sale ≤ endDate) docs.

(** [sales.reduce((sum, sale) => sum + sale.total, 0)] *)
Definition sum_total (docs : list Sale) : number :=
  fold_left (λ sum sale, (sum + s_total sale)%Qc) docs 0%Qc.

(** [sales.length > 0 ? totalRevenue / sales.length : 0] *)
Definition average (totalRevenue : number) (docs : list Sale) : number :=
  if decide (0 < length docs)%nat
  then (totalRevenue / of_nat (length docs))%Qc
  else 0%Qc.

Definition getSalesOverview (db : Db) : SalesOverview :=
  let docs := sales db in
  let totalRevenue := sum_total docs in
  mkSalesOverview (length docs) totalRevenue (average totalRevenue docs)
                  (size (products db)).

Definition getDailySalesReport (tz : Z) (date : JSDate.isodate) (db : Db)
  : DailySalesReport :=
  let startDate := JSDate.setHours tz (JSDate.parse date) 0 0 0 0 in
  let endDate := JSDate.setHours tz (JSDate.parse date) 23 59 59 999 in
  let docs := find_between startDate endDate (sales db) in
  let totalRevenue := sum_total docs in
  mkDailySalesReport date (length docs) totalRevenue
                     (average totalRevenue docs) docs.

(** The [while (currentDate <= endDate)] loop that enters every day; it
    has no bound of its own, so the model counts its iterations down from
    [fuel] and has no result when they run out. *)
Fixpoint fill_days (tz : Z) (fuel : nat) (currentDate endDate : Z)
  (dailyStats : list (JSDate.isodate * DayStats))
  : option (list (JSDate.isodate * DayStats)) :=
  if currentDate <=? endDate then
    match fuel with
    | O => None
    | S fuel' =>
        let dateStr := JSDate.toISODate currentDate in
        fill_days tz fuel'
          (JSDate.setDate tz currentDate (JSDate.getDate tz currentDate + 1))
          endDate
          (JSMap.set dateStr (mkDayStats 0 0%Qc) dailyStats)
    end
  else Some dailyStats.

(** The body of [sales.forEach] in the monthly report. *)
Definition count_sale (dailyStats : list (JSDate.isodate * DayStats)) (sale : Sale)
  : list (JSDate.isodate * DayStats) :=
  let dateStr := JSDate.toISODate (s_createdAt sale) in
  let stats := default (mkDayStats 0 0%Qc) (JSMap.get dateStr dailyStats) in
  JSMap.set dateStr
    (mkDayStats (S (ds_sales stats)) (ds_revenue stats + s_total sale)%Qc)
    dailyStats.

Definition getMonthlySalesReport (tz : Z) (fuel : nat) (month year : Z) (db : Db)
  : option MonthlySalesReport :=
  let startDate := JSDate.new_Date tz year (month - 1) 1 0 0 0 0 in
  let endDate := JSDate.new_Date tz year month 0 23 59 59 999 in
  let docs := find_between startDate endDate (sales db) in
  let totalRevenue := sum_total docs in
  match fill_days tz fuel startDate endDate [] with
  | None => None
  | Some dailyStats =>
      let dailyStats := fold_left count_sale docs dailyStats in
      Some (mkMonthlySalesReport month year (length docs) totalRevenue
              (average totalRevenue docs)
              ((λ '(date, stats), mkDailyStat date (ds_sales stats) (ds_revenue stats))
                 <$> dailyStats))
  end.

(** [populate('items.productId')]: the referenced product document, or
    [null] when it is no longer in the collection. *)
Definition populate (db : Db) (item : SaleItem) : option Product :=
  products db !! si_productId item.

(** The body of the inner [sale.items.forEach] of the product report. *)
Definition count_item (db : Db) (productStats : list (string * ProductSalesReport))
  (item : SaleItem) : list (string * ProductSalesReport) :=
  match populate db item with
  | None => productStats
  | Some product =>
      let productId := si_productId item in
      let stats := default (mkProductSalesReport productId (p_name product) 0%Qc 0%Qc 0%Qc)
                           (JSMap.get productId productStats) in
      let totalQuantitySold := (pr_totalQuantitySold stats + si_quantity item)%Qc in
      let totalRevenue := (pr_totalRevenue stats + si_price item * si_quantity item)%Qc in
      JSMap.set productId
        (mkProductSalesReport (pr_productId stats) (pr_name stats)
           totalQuantitySold totalRevenue (totalRevenue / totalQuantitySold)%Qc)
        productStats
  end.

Definition product_stats (db : Db) : list (string * ProductSalesReport) :=
  fold_left (λ productStats sale, fold_left (count_item db) (s_items sale) productStats)
            (sales db) [].

Definition getProductSalesReport (db : Db) : list ProductSalesReport :=
  JSArray.sort (λ a b, (pr_totalRevenue b - pr_totalRevenue a)%Qc)
               (JSMap.values (product_stats db)).

End SalesReportService.

(** * The other routes: products, receipts, date ranges and analytics

    The rest of [ProductService], the product controller, the text helpers
    of the receipt printer, [SalesReportService.getSalesByDateRange] and the
    report controller.  Further conventions:

    - A controller answers with a value or with an [HttpException]; where
      the message of the exception is a fixed text, the text is kept.
    - [ProductSchema] and [CategorySchema] are not part of the sources: the
      validators that [save()] runs on a product are a parameter
      [ProductSchema_valid], and a category is the one field that the
      controller reads, [parentId].  The id that Mongo gives a new product
      is a parameter too.
    - [find] on the products collection answers with the matching
      documents under their ids; their order is not modelled.
    - The order in which Mongo's [sort] leaves documents with the same
      sort key is not modelled; the properties do not depend on it.
    - The printer's strings are ASCII, so [String.length] is
      [text.length]; widths are whole numbers, as at every call site. *)

(** ** What a controller answers *)

(** [Respond] is the value returned, [Reject] is
    [throw new HttpException(message, status)], and [Rethrow] is an
    [HttpException] of a callee that a [catch] block throws on. *)
Inductive response (A : Type) :=
| Respond (a : A)
| Reject (message : string) (status : HttpStatus)
| Rethrow (msg : HttpMessage) (status : HttpStatus).
Arguments Respond {A} a.
Arguments Reject {A} message status.
Arguments Rethrow {A} msg status.

(** A handler reads and writes the database and answers. *)
Definition handler (A : Type) : Type := Db → response A * Db.

(** ** ProductService: create, delete, findAvailableProducts *)

Record Category := mkCategory {
  c_parentId : option string
}.

(** [CreateProductDto], without [specifications] and [availableOptions],
    which no code reads.  [variants] and [images] are empty when the
    request leaves them out. *)
Record CreateProductDto := mkCreateProductDto {
  cp_name : string;
  cp_brand : string;
  cp_basePrice : number;
  cp_purchasedPrice : number;
  cp_sellingPrice : number;
  cp_mainCategory : string;
  cp_subCategory : option string;
  cp_subSubCategory : option string;
  cp_description : string;
  cp_images : list string;
  cp_variants : list Variant
}.

Definition set_cp_variants (dto : CreateProductDto) (vs : list Variant)
  : CreateProductDto :=
  mkCreateProductDto (cp_name dto) (cp_brand dto) (cp_basePrice dto)
    (cp_purchasedPrice dto) (cp_sellingPrice dto) (cp_mainCategory dto)
    (cp_subCategory dto) (cp_subSubCategory dto) (cp_description dto)
    (cp_images dto) vs.

(** The product document of a request, as far as [Product] keeps it. *)
Definition product_of (dto : CreateProductDto) : Product :=
  mkProduct (cp_name dto) (cp_basePrice dto) (cp_purchasedPrice dto)
            (cp_sellingPrice dto) (cp_variants dto).

Module ProductStore.

Section create.
Context (ProductSchema_valid : CreateProductDto → Prop)
        `{!∀ dto, Decision (ProductSchema_valid dto)}.

(** [new this.productModel(createProductDto).save()]: the document is
    stored under the new id when the schema's validators accept it. *)
Definition create (newId : string) (createProductDto : CreateProductDto)
  : M Product :=
  λ db, if decide (ProductSchema_valid createProductDto)
        then (Return (product_of createProductDto),
              set_products db (<[newId := product_of createProductDto]> (products db)))
        else (Throw (Error "Product validation failed"), db).

End create.

(** [findByIdAndDelete(id)], and whether there was such a document. *)
Definition delete (id : string) : M bool :=
  λ db, match products db !! id with
        | Some _ => (Return true, set_products db (base.delete id (products db)))
        | None => (Return false, db)
        end.

(** The query [{ 'variants.stock': { $gt: 0 } }]: some element of the
    [variants] array has a positive stock. *)
Definition in_stock (product : Product) : Prop :=
  Exists (λ v, (0 < v_stock v)%Qc) (p_variants product).

#[global] Instance in_stock_dec product : Decision (in_stock product).
Proof. unfold in_stock. apply _. Defined.

Definition findAvailableProducts : M (gmap string Product) :=
  λ db, (Return (filter (λ doc, in_stock (snd doc)) (products db)), db).

End ProductStore.

(** ** ProductController *)

Module ProductController.

(** A string that is neither [undefined] nor empty. *)
Definition truthy (s : option string) : option string :=
  match s with
  | Some s => if decide (s = "") then None else Some s
  | None => None
  end.

(** The [for] loop over the variants of [createProduct]: the message of
    the first exception it throws, if any. *)
Fixpoint check_variants (variants : list Variant) : option string :=
  match variants with
  | [] => None
  | variant :: rest =>
      if decide (v_purchasedPrice variant ≤ 0 ∨ v_sellingPrice variant ≤ 0)%Qc
      then Some ("Variant " +:+ v_id variant +:+ " prices must be greater than 0")
      else if decide (v_stock variant < 0)%Qc
      then Some ("Variant " +:+ v_id variant +:+ " stock cannot be negative")
      else check_variants rest
  end.

(** The default variant that [createProduct] fills in. *)
Definition default_variant (dto : CreateProductDto) : Variant :=
  mkVariant "default" None None None
            (cp_purchasedPrice dto) (cp_sellingPrice dto) 0%Qc.

(** The [catch] block of [createProduct]. *)
Definition createProduct_catch {A} (error : exn) : response A :=
  match error with
  | HttpException msg status => Rethrow msg status
  | Error _ => Reject "Failed to create product" INTERNAL_SERVER_ERROR
  end.

Section createProduct.
Context (ProductSchema_valid : CreateProductDto → Prop)
        `{!∀ dto, Decision (ProductSchema_valid dto)}.
Context (categories : gmap string Category).

(** The two category checks; the sub-sub-category is looked at only when
    a sub-category is given. *)
Definition check_categories (dto : CreateProductDto) : option string :=
  match categories !! cp_mainCategory dto with
  | None => Some "Main category not found"
  | Some _ =>
      match truthy (cp_subCategory dto) with
      | None => None
      | Some sub =>
          match categories !! sub with
          | None => Some "Invalid sub-category"
          | Some subCategory =>
              if decide (c_parentId subCategory ≠ Some (cp_mainCategory dto))
              then Some "Invalid sub-category"
              else
                match truthy (cp_subSubCategory dto) with
                | None => None
                | Some subSub =>
                    match categories !! subSub with
                    | None => Some "Invalid sub-sub-category"
                    | Some subSubCategory =>
                        if decide (c_parentId subSubCategory ≠ Some sub)
                        then Some "Invalid sub-sub-category"
                        else None
                    end
                end
          end
      end
  end.

Definition createProduct (newId : string) (createProductDto : CreateProductDto)
  : handler Product :=
  λ db,
  if decide (cp_name createProductDto = "" ∨ cp_brand createProductDto = ""
             ∨ cp_mainCategory createProductDto = ""
             ∨ cp_description createProductDto = "")
  then (Reject "Name, brand, main category, and description are required"
               BAD_REQUEST, db)
  else if decide (cp_basePrice createProductDto ≤ 0
                  ∨ cp_purchasedPrice createProductDto ≤ 0
                  ∨ cp_sellingPrice createProductDto ≤ 0)%Qc
  then (Reject "All prices must be greater than 0" BAD_REQUEST, db)
  else if decide (length (cp_images createProductDto) = 0%nat)
  then (Reject "At least one image is required" BAD_REQUEST, db)
  else if decide (3 < length (cp_images createProductDto))%nat
  then (Reject "Maximum 3 images allowed" BAD_REQUEST, db)
  else
    let checked :=
      match cp_variants createProductDto with
      | [] => inr (set_cp_variants createProductDto
                     [default_variant createProductDto])
      | variants =>
          match check_variants variants with
          | Some message => inl message
          | None => inr createProductDto
          end
      end in
    match checked with
    | inl message => (Reject message BAD_REQUEST, db)
    | inr createProductDto =>
        match check_categories createProductDto with
        | Some message => (Reject message BAD_REQUEST, db)
        | None =>
            match ProductStore.create ProductSchema_valid newId createProductDto db with
            | (Return product, db') => (Respond product, db')
            | (Throw error, db') => (createProduct_catch error, db')
            end
        end
    end.

End createProduct.


Definition deleteProduct (id : string) : handler string :=
  λ db, match ProductStore.delete id db with
        | (Return true, db') => (Respond "Product deleted successfully", db')
        | (Return false, db') => (Reject "Product not found" NOT_FOUND, db')
        | (Throw (HttpException msg status), db') => (Rethrow msg status, db')
        | (Throw (Error _), db') =>
            (Reject "Failed to delete product" INTERNAL_SERVER_ERROR, db')
        end.

Definition updateStock (id : string) (stockChange : number) : handler Product :=
  λ db, match ProductService.updateStock id stockChange db with
        | (Return (Some product), db') => (Respond product, db')
        | (Return None, db') => (Reject "Product not found" NOT_FOUND, db')
        | (Throw (HttpException msg status), db') => (Rethrow msg status, db')
        | (Throw (Error message), db') =>
            if decide (message = "Insufficient stock")
            then (Reject "Insufficient stock" BAD_REQUEST, db')
            else (Reject "Failed to update stock" INTERNAL_SERVER_ERROR, db')
        end.

End ProductController.

(** ** NewSaleController: the text helpers of the receipt printer *)

Module ReceiptText.

(** [' '.repeat(count)] *)
Fixpoint spaces (count : nat) : string :=
  match count with
  | O => ""
  | S count => " " +:+ spaces count
  end.

(** [text.length], as a number. *)
Definition len (text : string) : Z := Z.of_nat (String.length text).

Definition centerText (text : string) (width : Z) : string :=
  let padding := Z.max 0 (width - len text) in
  let leftPad := padding / 2 in
  spaces (Z.to_nat leftPad) +:+ text.

Definition rightAlign (text : string) (width : Z) : string :=
  let padding := Z.max 0 (width - len text) in
  spaces (Z.to_nat padding) +:+ text.


End ReceiptText.

(** ** SalesReportService.getSalesByDateRange *)

Module DateRange.

(** The order of [sort({ createdAt: -1 })]: newest first. *)
Definition newest_first (a b : Sale) : Prop := s_createdAt b ≤ s_createdAt a.

#[global] Instance newest_first_dec a b : Decision (newest_first a b).
Proof. unfold newest_first. apply _. Defined.

Definition getSalesByDateRange (tz : Z) (startDate endDate : JSDate.isodate)
  (db : Db) : list Sale :=
  let start := JSDate.setHours tz (JSDate.parse startDate) 0 0 0 0 in
  let end_ := JSDate.setHours tz (JSDate.parse endDate) 23 59 59 999 in
  merge_sort newest_first (SalesReportService.find_between start end_ (sales db)).

End DateRange.

(** ** SalesReportController *)

(** A date given as a query parameter: left out (or empty), a text that
    [new Date] does not understand, or a ["YYYY-MM-DD"] string. *)
Inductive DateParam :=
| NoDate
| BadDate
| IsoDate (d : JSDate.isodate).

Record Analytics := mkAnalytics {
  an_totalSalesThisMonth : number;
  an_totalSalesLastMonth : number;
  an_growthPercentage : number;
  an_topSellingProducts : list ProductSalesReport;
  an_recentSales : list Sale
}.

Module SalesReportController.

(** [today.getMonth()] and [today.getFullYear()], in local time. *)
Definition getMonth (tz t : Z) : Z := JSDate.MonthFromTime (JSDate.LocalTime tz t).
Definition getFullYear (tz t : Z) : Z := JSDate.YearFromTime (JSDate.LocalTime tz t).

(** [Math.round]: the nearest integer, a half going up. *)
Definition Math_round (x : number) : number := num (Qfloor (x + 1 / num 2)%Qc).

(** [l.slice(-count)]: the last [count] elements. *)
Definition slice_last {A} (count : nat) (l : list A) : list A :=
  drop (length l - count) l.

(** [date] is the query parameter, [None] when it is left out or empty;
    [now] is the time of the request. *)
Definition getDailySalesReport (tz now : Z) (date : option JSDate.isodate)
  (db : Db) : DailySalesReport :=
  let targetDate := match date with
                    | Some date => date
                    | None => JSDate.toISODate now
                    end in
  SalesReportService.getDailySalesReport tz targetDate db.

(** [month] and [year] are the query parameters after [parseInt], [None]
    for a parameter that is left out (one that [parseInt] cannot read is
    not modelled); [now] is the time of the request.  The result is [None]
    when a loop of the service runs out of [fuel]. *)
Definition getMonthlySalesReport (tz : Z) (fuel : nat) (now : Z)
  (month year : option Z) (db : Db) : option (response MonthlySalesReport) :=
  let targetMonth := match month with
                     | Some month => month
                     | None => getMonth tz now + 1
                     end in
  let targetYear := match year with
                    | Some year => year
                    | None => getFullYear tz now
                    end in
  if decide (targetMonth < 1 ∨ 12 < targetMonth)
  then Some (Reject "Invalid month. Must be between 1 and 12" BAD_REQUEST)
  else Respond <$> SalesReportService.getMonthlySalesReport tz fuel targetMonth targetYear db.

Definition getSalesByDateRange (tz : Z) (startDate endDate : DateParam) (db : Db)
  : response (list Sale) :=
  match startDate, endDate with
  | NoDate, _ | _, NoDate =>
      Reject "Start date and end date are required" BAD_REQUEST
  | BadDate, _ | _, BadDate =>
      Reject "Invalid date format. Use YYYY-MM-DD" BAD_REQUEST
  | IsoDate startDate, IsoDate endDate =>
      if decide (JSDate.parse endDate < JSDate.parse startDate)
      then Reject "Start date must be before end date" BAD_REQUEST
      else Respond (DateRange.getSalesByDateRange tz startDate endDate db)
  end.

Definition getAnalytics (tz : Z) (fuel : nat) (now : Z) (db : Db)
  : option Analytics :=
  let currentMonth := getMonth tz now + 1 in
  let currentYear := getFullYear tz now in
  let lastMonth := if decide (currentMonth = 1) then 12 else currentMonth - 1 in
  let lastMonthYear := if decide (currentMonth = 1) then currentYear - 1
                       else currentYear in
  match SalesReportService.getMonthlySalesReport tz fuel currentMonth currentYear db,
        SalesReportService.getMonthlySalesReport tz fuel lastMonth lastMonthYear db with
  | Some thisMonthReport, Some lastMonthReport =>
      let productReport := SalesReportService.getProductSalesReport db in
      let growthPercentage :=
        if decide (0 < mr_totalRevenue lastMonthReport)%Qc
        then ((mr_totalRevenue thisMonthReport - mr_totalRevenue lastMonthReport)
              / mr_totalRevenue lastMonthReport * num 100)%Qc
        else 0%Qc in
      let endDate := JSDate.toISODate now in
      let startDate := JSDate.toISODate (now - 30 * 24 * 60 * 60 * 1000) in
      let recentSales := DateRange.getSalesByDateRange tz startDate endDate db in
      Some (mkAnalytics (mr_totalRevenue thisMonthReport)
              (mr_totalRevenue lastMonthReport)
              (Math_round (growthPercentage * num 100) / num 100)%Qc
              (take 5 productReport)
              (slice_last 10 recentSales))
  | _, _ => None
  end.

End SalesReportController.

(** * Vocabulary of the properties *)

(** The final state of a computation. *)
Definition exec {A} (m : M A) (db : Db) : Db := snd (m db).

(** ** Stock *)

(** The stock that the sale and stock code see for a product: that of
    [variants[0]], or 0 when there is no variant. *)
Definition first_stock (p : Product) : number :=
  v_stock (fst (ProductService.normalize p)).

(** No variant of any product has a negative stock. *)
Definition stock_nonneg (db : Db) : Prop :=
  ∀ id p, products db !! id = Some p →
          Forall (λ v, (0 ≤ v_stock v)%Qc) (p_variants p).

(** A sequence of [updateStock] calls, each given by a product id and a
    signed change; a call that throws is followed by the next one. *)
Definition apply_updates (ops : list (string * number)) (db : Db) : Db :=
  fold_left (λ db op, exec (ProductService.updateStock (fst op) (snd op)) db) ops db.




(** ** Sales *)

(** The price [createSale] charges for a product: the selling price of the
    first variant, or the base price when there is no variant. *)
Definition unit_price (p : Product) : number :=
  match p_variants p with
  | v :: _ => v_sellingPrice v
  | [] => p_basePrice p
  end.

(** A request line that passes the checks of the first loop of
    [createSale] in database [db]. *)
Definition line_ok (db : Db) (l : SaleLine) : Prop :=
  match products db !! l_productId l with
  | Some p => (0 < l_quantity l)%Qc ∧ (l_quantity l ≤ first_stock p)%Qc
  | None => False
  end.

#[global] Instance line_ok_dec db l : Decision (line_ok db l).
Proof. unfold line_ok. destruct (products db !! l_productId l); apply _. Defined.





(** The sum over line items of unit price times quantity. *)
Definition line_sum (items : list SaleItem) : number :=
  foldr (λ it acc, (si_price it * si_quantity it + acc)%Qc) 0%Qc items.


(** No first variant has a negative selling price. *)
Definition prices_nonneg (db : Db) : Prop :=
  ∀ id p v, products db !! id = Some p → head (p_variants p) = Some v →
            (0 ≤ v_sellingPrice v)%Qc.

(** ** The first variant and the others *)





(** ** Overview and daily report *)

(** The sum of the totals of a list of sales. *)
Definition revenue_sum (docs : list Sale) : number :=
  foldr (λ sale acc, (s_total sale + acc)%Qc) 0%Qc docs.


(** ** Product report *)

(** Every line item of every sale, in the order of the collection. *)
Definition all_items (db : Db) : list SaleItem := concat (s_items <$> sales db).



(** The line items whose product is still in the collection: the ones the
    product report counts. *)
Definition counted (db : Db) (items : list SaleItem) : list SaleItem :=
  filter (λ it, is_Some (products db !! si_productId it)) items.

(** The counted line items of one product. *)
Definition items_of (db : Db) (id : string) (items : list SaleItem) : list SaleItem :=
  filter (λ it, si_productId it = id) (counted db items).

(** The sum over line items of the quantities. *)
Definition quantity_sum (items : list SaleItem) : number :=
  foldr (λ it acc, (si_quantity it + acc)%Qc) 0%Qc items.

(** The ids of a list without repetitions, each at its first occurrence. *)
Definition first_occurrences (ids : list string) : list string :=
  fold_left (λ seen id, if decide (id ∈ seen) then seen else seen ++ [id]) ids [].

(** The report entry of a product, from its line items. *)
Definition report_of (db : Db) (id : string) (items : list SaleItem)
  : ProductSalesReport :=
  let its := items_of db id items in
  mkProductSalesReport id (from_option p_name "" (products db !! id))
    (quantity_sum its) (line_sum its) (line_sum its / quantity_sum its)%Qc.

(** Descending order by [key]: every element is at least as large as all
    later ones. *)
Definition descending {A} (key : A → number) (l : list A) : Prop :=
  StronglySorted (λ a b, (key b ≤ key a)%Qc) l.

(** ** Calendar and monthly report *)

(** 1 in a leap year, 0 otherwise. *)
Definition leap_flag (y : Z) : Z := if JSDate.DaysInYear y =? 366 then 1 else 0.

(** The number of days of month [m] (1-12) of year [y]. *)
Definition daysInMonth (m y : Z) : Z :=
  match m with
  | 2 => if JSDate.DaysInYear y =? 366 then 29 else 28
  | 4 | 6 | 9 | 11 => 30
  | _ => 31
  end.

(** The day number of the first day of month [m] of year [y]. *)
Definition first_day (y m : Z) : Z :=
  JSDate.DayFromYear y + JSDate.month_start (m - 1) (leap_flag y).

(** A date that exists in the calendar. *)
Definition valid_date (d : JSDate.isodate) : Prop :=
  1 ≤ JSDate.iso_month d ≤ 12
  ∧ 1 ≤ JSDate.iso_day d ≤ daysInMonth (JSDate.iso_month d) (JSDate.iso_year d).

(** The dates of month [m] of year [y], first to last. *)
Definition month_dates (y m : Z) : list JSDate.isodate :=
  JSDate.mkIsodate y m <$> seqZ 1 (daysInMonth m y).

(** The statistics of a day without sales. *)
Definition no_sales : DayStats := mkDayStats 0 0%Qc.

(** The sales whose time of creation has UTC date [d]. *)
Definition sales_on (d : JSDate.isodate) (docs : list Sale) : list Sale :=
  filter (λ sale, JSDate.toISODate (s_createdAt sale) = d) docs.

(** The sales that the query of the monthly report returns. *)
Definition month_sales (tz month year : Z) (db : Db) : list Sale :=
  SalesReportService.find_between
    (JSDate.new_Date tz year (month - 1) 1 0 0 0 0)
    (JSDate.new_Date tz year month 0 23 59 59 999) (sales db).

(** The dates of the [dailyStats] of a monthly report. *)
Definition report_dates (r : MonthlySalesReport) : list JSDate.isodate :=
  dst_date <$> mr_dailyStats r.

(** ** Example shops *)

(** A shop with one product, a phone with a single variant: 5 in stock,
    sold at 10. *)
Definition phone_variant : Variant :=
  mkVariant "black-128" (Some "black") None (Some "128GB") (num 8) (num 10) (num 5).
Definition phone : Product :=
  mkProduct "Phone" (num 10) (num 8) (num 10) [phone_variant].
Definition one_phone_shop : Db := mkDb {[ "p1" := phone ]} [].

Definition buy_half : CreateSaleDto :=
  mkCreateSaleDto [mkSaleLine "p1" (num 1 / num 2)%Qc] None.

(** Two sales of three phones and a delivery of four, as stock updates. *)
Definition phone_updates : list (string * number) :=
  [("p1", num (-3)); ("p1", num (-3)); ("p1", num 4)].

(** A shop with a phone and a case and three sales: phones bring in 20,
    cases bring in 20 as well, the phone being sold first. *)
Definition phone_case : Product :=
  mkProduct "Case" (num 5) (num 2) (num 5)
    [mkVariant "clear" None None None (num 2) (num 5) (num 40)].
Definition busy_shop : Db :=
  mkDb {[ "p1" := phone; "p2" := phone_case ]}
       [mkSale [mkSaleItem "p1" (num 1) (num 10); mkSaleItem "p2" (num 2) (num 5)]
               (num 20) None 1000;
        mkSale [mkSaleItem "p2" (num 2) (num 5)] (num 10) None 2000;
        mkSale [mkSaleItem "p1" (num 1) (num 10)] (num 10) (Some "Ann") 3000].

(** Some fixed-offset time zones: Colombo is five and a half hours east of
    UTC, Bogota five hours west. *)
Definition tz_utc : Z := 0.
Definition tz_colombo : Z := 19800000.
Definition tz_bogota : Z := -18000000.

(** 15 March 2024 and the two sales of the daily-report example: one
    phone sold at noon, Bogota time, on 15 March 2024 (17:00 UTC) and two
    sold at noon the day before. *)
Definition march_15 : JSDate.isodate := JSDate.mkIsodate 2024 3 15.
Definition sale_on_march_15 : Sale :=
  mkSale [mkSaleItem "p1" (num 1) (num 10)] (num 10) None
         (JSDate.parse (JSDate.mkIsodate 2024 3 15) + 17 * 3600000).
Definition sale_on_march_14 : Sale :=
  mkSale [mkSaleItem "p1" (num 2) (num 10)] (num 20) None
         (JSDate.parse (JSDate.mkIsodate 2024 3 14) + 17 * 3600000).
Definition two_day_shop : Db :=
  mkDb {[ "p1" := phone ]} [sale_on_march_14; sale_on_march_15].

(** The shop with a single sale, of one phone, made at 22:00, Bogota time,
    on 31 March 2024 (03:00 UTC on 1 April). *)
Definition late_sale : Sale :=
  mkSale [mkSaleItem "p1" (num 1) (num 10)] (num 10) None
         (JSDate.parse (JSDate.mkIsodate 2024 4 1) + 3 * 3600000).
Definition late_sale_shop : Db := mkDb {[ "p1" := phone ]} [late_sale].

(** * Vocabulary of the further properties *)

(** ** Stock as a ledger *)



(** A shop with one product that has no variant. *)
Definition gift_card : Product :=
  mkProduct "Gift card" (num 20) (num 18) (num 20) [].
Definition gift_shop : Db := mkDb {[ "g1" := gift_card ]} [].

(** ** Sales, continued *)

(** The exception that the first loop of [createSale] throws for a line,
    if the line fails one of its three checks. *)
Definition line_error (db : Db) (l : SaleLine) : option exn :=
  if decide (l_quantity l ≤ 0)%Qc
  then Some (HttpException QuantityMustBePositive BAD_REQUEST)
  else match products db !! l_productId l with
       | None => Some (HttpException (ProductNotFound (l_productId l)) NOT_FOUND)
       | Some p =>
           if decide (first_stock p < l_quantity l)%Qc
           then Some (HttpException
                        (InsufficientStock (p_name p) (first_stock p) (l_quantity l))
                        BAD_REQUEST)
           else None
       end.



(** ** Products *)

(** A variant as [createProduct] lets it in: prices above 0 and a stock
    that is not negative. *)
Definition variant_ok (v : Variant) : Prop :=
  (0 < v_purchasedPrice v)%Qc ∧ (0 < v_sellingPrice v)%Qc ∧ (0 ≤ v_stock v)%Qc.

(** A request whose own fields are in order: the four texts are there,
    the three prices are above 0, there are one to three images, and every
    variant is in order. *)
Definition request_ok (dto : CreateProductDto) : Prop :=
  (cp_name dto ≠ "" ∧ cp_brand dto ≠ "" ∧ cp_mainCategory dto ≠ ""
   ∧ cp_description dto ≠ "")
  ∧ ((0 < cp_basePrice dto)%Qc ∧ (0 < cp_purchasedPrice dto)%Qc
     ∧ (0 < cp_sellingPrice dto)%Qc)
  ∧ (1 ≤ length (cp_images dto) ≤ 3)%nat
  ∧ Forall variant_ok (cp_variants dto).

(** Category [id] exists and its parent is [parent]. *)
Definition child_of (categories : gmap string Category) (parent id : string) : Prop :=
  ∃ c, categories !! id = Some c ∧ c_parentId c = Some parent.

(** The categories of a request are in order: the main category exists;
    a sub-category, if given, is a child of it; and a sub-sub-category, if
    given together with a sub-category, is a child of that. *)
Definition categories_ok (categories : gmap string Category)
  (dto : CreateProductDto) : Prop :=
  is_Some (categories !! cp_mainCategory dto)
  ∧ match ProductController.truthy (cp_subCategory dto) with
    | None => True
    | Some sub =>
        child_of categories (cp_mainCategory dto) sub
        ∧ match ProductController.truthy (cp_subSubCategory dto) with
          | None => True
          | Some subSub => child_of categories sub subSub
          end
    end.

(** The request as it is stored: one without variants gets the default
    variant. *)
Definition with_default (dto : CreateProductDto) : CreateProductDto :=
  match cp_variants dto with
  | [] => set_cp_variants dto [ProductController.default_variant dto]
  | _ => dto
  end.

(** A schema that accepts every product, one category, and a request for
    a product without variants. *)
Definition any_product (dto : CreateProductDto) : Prop := True.

#[global] Instance any_product_dec dto : Decision (any_product dto).
Proof. unfold any_product. apply _. Defined.

Definition phone_categories : gmap string Category :=
  {[ "c1" := mkCategory None; "c2" := mkCategory (Some "c1") ]}.

Definition charger_request : CreateProductDto :=
  mkCreateProductDto "Charger" "Volt" (num 15) (num 9) (num 15) "c1" (Some "c2")
                     None "A fast charger" ["charger.png"] [].

(** A tablet whose first variant is sold out while the second is not. *)
Definition tablet : Product :=
  mkProduct "Tablet" (num 90) (num 70) (num 90)
    [mkVariant "grey-64" (Some "grey") None (Some "64GB") (num 70) (num 90) (num 0);
     mkVariant "grey-128" (Some "grey") None (Some "128GB") (num 80) (num 100) (num 3)].
Definition tablet_shop : Db := mkDb {[ "t1" := tablet ]} [].

(** ** Reports, continued *)

(** By how much the day of the daily report is off: nothing at UTC and
    east of it, a day west of it. *)
Definition day_shift (tz : Z) : Z := if decide (0 ≤ tz) then 0 else JSDate.msPerDay.

(** The year that [new Date(year, ...)] takes a year to mean. *)
Definition full_year (year : Z) : Z :=
  if (0 <=? year) && (year <=? 99) then 1900 + year else year.

(** The dates that the loop of the monthly report enters: the UTC dates
    of the local midnights of the month. *)
Definition entered_dates (tz month year : Z) : list JSDate.isodate :=
  (λ i, JSDate.toISODate (JSDate.new_Date tz year (month - 1) 1 0 0 0 0
                          + i * JSDate.msPerDay))
    <$> seqZ 0 (daysInMonth month (full_year year)).

(** The sum of a list of numbers. *)
Definition total (l : list number) : number := foldr Qcplus 0%Qc l.


(** The statistics of the days that the loop of the monthly report has
    entered, and those of the report: the sales of the month counted on
    top of them. *)
Definition entered_stats (tz month year : Z) : list (JSDate.isodate * DayStats) :=
  (λ d, (d, no_sales)) <$> entered_dates tz month year.
Definition month_stats (tz month year : Z) (db : Db)
  : list (JSDate.isodate * DayStats) :=
  fold_left SalesReportService.count_sale (month_sales tz month year db)
            (entered_stats tz month year).

(** ** Date ranges and analytics *)

(** The sales of a range of days, both ends included, by the clock of the
    host (a day early west of UTC), in the order of the collection. *)
Definition range_sales (tz : Z) (startDate endDate : JSDate.isodate) (db : Db)
  : list Sale :=
  filter (λ sale, JSDate.parse startDate
                  ≤ JSDate.LocalTime tz (s_createdAt sale) + day_shift tz
                  ≤ JSDate.parse endDate + (JSDate.msPerDay - 1))
         (sales db).

(** The sales that [getAnalytics] asks for: those of the thirty days up
    to [now], newest first. *)
Definition thirty_days (tz now : Z) (db : Db) : list Sale :=
  DateRange.getSalesByDateRange tz
    (JSDate.toISODate (now - 30 * 24 * 60 * 60 * 1000)) (JSDate.toISODate now) db.

(** The month before month [m] of year [y]. *)
Definition month_before (m y : Z) : Z * Z :=
  if decide (m = 1) then (12, y - 1) else (m - 1, y).

(** The revenue of the sales of a month. *)
Definition month_revenue (tz month year : Z) (db : Db) : number :=
  revenue_sum (month_sales tz month year db).

(** Growth in percent. *)
Definition growth_percent (this last : number) : number :=
  ((this - last) / last * num 100)%Qc.

(** ** The shop as a whole *)




Section handle.
Context (ProductSchema_valid : CreateProductDto → Prop)
        `{!∀ dto, Decision (ProductSchema_valid dto)}.
Context (categories : gmap string Category).


End handle.


(** The quantity of a product that the lines of a request ask for. *)
Definition requested (id : string) (items : list SaleLine) : number :=
  foldr (λ l acc, (l_quantity l + acc)%Qc) 0%Qc
        (filter (λ l, l_productId l = id) items).


(** * Arithmetic on [number] *)

(** Linear arithmetic on [Qc], through the fractions. *)
Ltac qc_lra :=
  unfold Qcle, Qclt, Qcminus in *;
  cbn [this Qcplus Qcopp Qcmult Q2Qc] in *;
  rewrite ?Qred_correct in *;
  lra.



(** * Facts about the JavaScript [Map] and [sort] models *)

Section JSMap_facts.
Context {K V : Type} `{EqDecision K}.
Implicit Types (k : K) (v : V) (m : list (K * V)).

(** Reading after writing. *)
Lemma get_set_eq k v m : JSMap.get k (JSMap.set k v m) = Some v.
Proof.
  induction m as [|[k' v'] m IH]; simpl.
  - by rewrite decide_True.
  - destruct (decide (k = k')) as [<-|Hne]; simpl.
    + by rewrite decide_True.
    + by rewrite decide_False.
Qed.

Lemma get_set_ne k k' v m :
  k ≠ k' → JSMap.get k' (JSMap.set k v m) = JSMap.get k' m.
Proof.
  intros Hne. induction m as [|[k'' v''] m IH]; simpl.
  - by rewrite decide_False.
  - destruct (decide (k = k'')) as [<-|Hne']; simpl.
    + by rewrite !decide_False.
    + by rewrite IH.
Qed.

(** Lookup and membership of the entries. *)
Lemma get_Some_elem k v m : JSMap.get k m = Some v → (k, v) ∈ m.
Proof.
  induction m as [|[k' v'] m IH]; simpl; [done |].
  destruct (decide (k = k')) as [<-|Hne].
  - intros [= <-]. apply list_elem_of_here.
  - intros Hget. apply list_elem_of_further. by apply IH.
Qed.

Lemma elem_get_Some k v m :
  NoDup (JSMap.keys m) → (k, v) ∈ m → JSMap.get k m = Some v.
Proof.
  unfold JSMap.keys. induction m as [|[k' v'] m IH]; simpl.
  - intros _ Hin. by apply elem_of_nil in Hin.
  - rewrite list.NoDup_cons. intros [Hfresh Hnodup] Hin.
    apply elem_of_cons in Hin as [[= <- <-]|Hin].
    + by rewrite decide_True.
    + rewrite decide_False; [by apply IH |].
      intros <-. apply Hfresh. apply list_elem_of_fmap. by exists (k, v).
Qed.

(** Setting a key keeps the order of the keys; a new key goes last. *)
Lemma keys_set k v m :
  JSMap.keys (JSMap.set k v m)
  = if decide (k ∈ JSMap.keys m) then JSMap.keys m else JSMap.keys m ++ [k].
Proof.
  unfold JSMap.keys. induction m as [|[k' v'] m IH].
  - cbn [JSMap.set fmap list_fmap fst app].
    rewrite decide_False; [done | apply not_elem_of_nil].
  - cbn [JSMap.set]. destruct (decide (k = k')) as [<-|Hne].
    + cbn [fmap list_fmap fst].
      rewrite decide_True; [done | apply list_elem_of_here].
    + cbn [fmap list_fmap fst] in *. rewrite IH.
      destruct (decide (k ∈ fst <$> m)) as [Hin|Hout].
      * rewrite decide_True; [done | by apply list_elem_of_further].
      * rewrite decide_False; [done |]. rewrite not_elem_of_cons. done.
Qed.

(** Setting a key that is not there appends it. *)
Lemma set_fresh k v m :
  k ∉ JSMap.keys m → JSMap.set k v m = m ++ [(k, v)].
Proof.
  unfold JSMap.keys. induction m as [|[k' v'] m IH]; [done |].
  cbn [fmap list_fmap fst]. rewrite not_elem_of_cons. intros [Hne Hout].
  cbn [JSMap.set]. rewrite decide_False by done. by rewrite IH.
Qed.

End JSMap_facts.

(** [sort] with the comparator [λ a b, key b - key a]: descending by
    [key], and stable. *)

Section sort_descending.
Context {A : Type} (key : A → number).

Local Abbreviation comparefn := (λ a b, (key b - key a)%Qc).

(** [a] is moved behind [b] exactly when its key is smaller. *)
Lemma comparefn_pos a b : (0 < key b - key a)%Qc ↔ (key a < key b)%Qc.
Proof. split; intros; qc_lra. Qed.

(** Sorting permutes. *)
Lemma insert_Permutation a l : JSArray.insert comparefn a l ≡ₚ a :: l.
Proof.
  induction l as [|b l IH]; simpl; [done |].
  case_decide; [| done]. rewrite IH. apply Permutation_swap.
Qed.


(** The result is in descending order. *)
Lemma insert_descending a l :
  descending key l → descending key (JSArray.insert comparefn a l).
Proof.
  unfold descending. induction l as [|b l IH]; simpl; intros Hl.
  - repeat constructor.
  - apply StronglySorted_inv in Hl as [Hl Hb].
    destruct (decide (0 < key b - key a)%Qc) as [Hlt|Hge].
    + apply comparefn_pos in Hlt. constructor; [by apply IH |].
      rewrite insert_Permutation. constructor; [by apply Qclt_le_weak | done].
    + assert (Hba : (key b ≤ key a)%Qc).
      { apply Qcnot_lt_le. by rewrite <- comparefn_pos. }
      constructor; [by constructor |]. constructor; [done |].
      eapply Forall_impl; [exact Hb |]. simpl. intros c Hc.
      by apply Qcle_trans with (key b).
Qed.

Lemma sort_descending l : descending key (JSArray.sort comparefn l).
Proof.
  induction l as [|a l IH]; simpl; [constructor | by apply insert_descending].
Qed.



End sort_descending.

(** * The calendar behind [Date] *)

Section calendar.
Import JSDate.

(** Years have 365 or 366 days, and 1 January moves on by as many. *)
Lemma DaysInYear_cases y : DaysInYear y = 365 ∨ DaysInYear y = 366.
Proof. unfold DaysInYear. repeat case_match; auto. Qed.

(** A floor division by a constant steps up exactly at the multiples. *)
Lemma div_succ n x :
  0 < n → (x + 1) / n = x / n + (if (x + 1) mod n =? 0 then 1 else 0).
Proof.
  intros Hn. destruct ((x + 1) mod n =? 0) eqn:Hmod.
  - apply Z.eqb_eq in Hmod. Z.div_mod_to_equations; nia.
  - apply Z.eqb_neq in Hmod. Z.div_mod_to_equations; nia.
Qed.

Lemma DayFromYear_succ y : DayFromYear (y + 1) = DayFromYear y + DaysInYear y.
Proof.
  unfold DayFromYear, DaysInYear.
  replace (y + 1 - 1969) with (y - 1969 + 1) by lia.
  replace (y + 1 - 1901) with (y - 1901 + 1) by lia.
  replace (y + 1 - 1601) with (y - 1601 + 1) by lia.
  rewrite !div_succ by lia.
  replace ((y - 1969 + 1) mod 4) with (y mod 4)
    by (Z.div_mod_to_equations; lia).
  replace ((y - 1901 + 1) mod 100) with (y mod 100)
    by (Z.div_mod_to_equations; lia).
  replace ((y - 1601 + 1) mod 400) with (y mod 400)
    by (Z.div_mod_to_equations; lia).
  assert (H100 : y mod 100 = 0 → y mod 4 = 0) by (Z.div_mod_to_equations; lia).
  assert (H400 : y mod 400 = 0 → y mod 100 = 0) by (Z.div_mod_to_equations; lia).
  destruct (y mod 4 =? 0) eqn:E4, (y mod 100 =? 0) eqn:E100, (y mod 400 =? 0) eqn:E400;
    simpl; rewrite ?Z.eqb_eq, ?Z.eqb_neq in *; lia.
Qed.

(** 400 times the day number of 1 January is 146097 times the year, up to
    a bounded error. *)
Lemma DayFromYear_linear y :
  146097 * (y - 1970) - 506 ≤ 400 * DayFromYear y ≤ 146097 * (y - 1970) + 589.
Proof. unfold DayFromYear. Z.div_mod_to_equations; lia. Qed.

(** [YearFromDay] finds the year of a day. *)
Lemma YearFromDay_unique y d :
  DayFromYear y ≤ d < DayFromYear (y + 1) → YearFromDay d = y.
Proof.
  intros Hd.
  pose proof (DayFromYear_succ y) as Hsucc.
  pose proof (DayFromYear_succ (y + 1)) as Hsucc'.
  pose proof (DayFromYear_succ (y - 1)) as Hpred.
  replace (y - 1 + 1) with y in Hpred by lia.
  pose proof (DaysInYear_cases y) as Hy.
  pose proof (DaysInYear_cases (y + 1)) as Hy'.
  pose proof (DaysInYear_cases (y - 1)) as Hp.
  pose proof (DayFromYear_linear y) as Hlin.
  unfold YearFromDay.
  set (e := 1970 + 400 * d / 146097).
  assert (He : e = y - 1 ∨ e = y ∨ e = y + 1).
  { subst e. Z.div_mod_to_equations; lia. }
  clearbody e. destruct He as [He|[He|He]]; subst e.
  - replace (y - 1 + 1) with y by lia. rewrite (proj2 (Z.leb_le _ _)) by lia. lia.
  - rewrite (proj2 (Z.leb_gt _ _)) by lia. by rewrite (proj2 (Z.ltb_ge _ _)) by lia.
  - rewrite (proj2 (Z.leb_gt _ _)) by lia. rewrite (proj2 (Z.ltb_lt _ _)) by lia. lia.
Qed.

(** The months follow one another and fill the year. *)
Lemma month_start_next m y :
  1 ≤ m ≤ 11 →
  month_start m (leap_flag y) = month_start (m - 1) (leap_flag y) + daysInMonth m y.
Proof.
  intros Hm. unfold leap_flag, daysInMonth.
  assert (m = 1 ∨ m = 2 ∨ m = 3 ∨ m = 4 ∨ m = 5 ∨ m = 6 ∨ m = 7 ∨ m = 8 ∨ m = 9
          ∨ m = 10 ∨ m = 11) as Hcases by lia.
  destruct (DaysInYear y =? 366);
    repeat (destruct Hcases as [->|Hcases]; [simpl; lia |]); subst; simpl; lia.
Qed.

Lemma year_length y : DaysInYear y = month_start 11 (leap_flag y) + 31.
Proof.
  unfold leap_flag. destruct (DaysInYear_cases y) as [H|H]; rewrite H; simpl; lia.
Qed.

(** A day within month [m] is found to be in month [m]. *)
Lemma month_of_day_start m y k :
  1 ≤ m ≤ 12 → 0 ≤ k < daysInMonth m y →
  month_of_day (month_start (m - 1) (leap_flag y) + k) (leap_flag y) = m - 1
  ∧ 0 ≤ month_start (m - 1) (leap_flag y) + k < DaysInYear y.
Proof.
  intros Hm Hk. rewrite year_length.
  assert (m = 1 ∨ m = 2 ∨ m = 3 ∨ m = 4 ∨ m = 5 ∨ m = 6 ∨ m = 7 ∨ m = 8 ∨ m = 9
          ∨ m = 10 ∨ m = 11 ∨ m = 12) as Hcases by lia.
  unfold daysInMonth, leap_flag, month_of_day in *.
  destruct (DaysInYear y =? 366);
    repeat (destruct Hcases as [->|Hcases];
            [simpl in *; repeat case_match; lia |]);
    subst; simpl in *; repeat case_match; lia.
Qed.

(** Year, month and date of any time of the day [k] days after the first
    of month [m] of year [y], within the month. *)
Lemma civil_of_day y m k t :
  1 ≤ m ≤ 12 → 0 ≤ k < daysInMonth m y → 0 ≤ t < msPerDay →
  let day := DayFromYear y + month_start (m - 1) (leap_flag y) + k in
  Day (day * msPerDay + t) = day
  ∧ YearFromTime (day * msPerDay + t) = y
  ∧ MonthFromTime (day * msPerDay + t) = m - 1
  ∧ DateFromTime (day * msPerDay + t) = k + 1.
Proof.
  intros Hm Hk Ht day.
  destruct (month_of_day_start m y k Hm Hk) as [Hmonth_of Hin].
  assert (Hday : Day (day * msPerDay + t) = day).
  { unfold Day, msPerDay in *. symmetry. apply Z.div_unique with (r := t); lia. }
  assert (Hyear : YearFromTime (day * msPerDay + t) = y).
  { unfold YearFromTime. rewrite Hday. apply YearFromDay_unique.
    rewrite DayFromYear_succ. unfold day. lia. }
  assert (Hdwy : DayWithinYear (day * msPerDay + t)
                 = month_start (m - 1) (leap_flag y) + k).
  { unfold DayWithinYear. rewrite Hday, Hyear. unfold day. lia. }
  assert (Hleap : InLeapYear (day * msPerDay + t) = leap_flag y).
  { unfold InLeapYear, leap_flag. by rewrite Hyear. }
  assert (Hmonth : MonthFromTime (day * msPerDay + t) = m - 1).
  { unfold MonthFromTime. by rewrite Hdwy, Hleap. }
  split; [done |]. split; [done |]. split; [done |].
  unfold DateFromTime. rewrite Hdwy, Hleap, Hmonth. lia.
Qed.

(** [MakeDay] of a year, a month index 0-11 and a date. *)
Lemma MakeDay_in_year y mi date :
  0 ≤ mi ≤ 11 →
  MakeDay y mi date = DayFromYear y + month_start mi (leap_flag y) + date - 1.
Proof.
  intros Hmi. unfold MakeDay, leap_flag.
  replace (mi / 12) with 0 by (Z.div_mod_to_equations; lia).
  replace (mi mod 12) with mi by (Z.div_mod_to_equations; lia).
  by rewrite Z.add_0_r.
Qed.

(** Day 0 of the next month is the last day of this one. *)
Lemma MakeDay_last y m :
  1 ≤ m ≤ 12 →
  MakeDay y m 0 = MakeDay y (m - 1) 1 + daysInMonth m y - 1.
Proof.
  intros Hm. rewrite (MakeDay_in_year y (m - 1)) by lia.
  destruct (decide (m = 12)) as [->|Hne].
  - unfold MakeDay. simpl. rewrite DayFromYear_succ, year_length.
    change (daysInMonth 12 y) with 31. simpl. lia.
  - rewrite MakeDay_in_year by lia. rewrite month_start_next by lia. lia.
Qed.

(** The times of one day. *)
Lemma Day_window day t :
  day * msPerDay ≤ t ≤ day * msPerDay + (msPerDay - 1) ↔ Day t = day.
Proof. unfold Day, msPerDay. split; intros H; Z.div_mod_to_equations; lia. Qed.

(** The times whose UTC date is a given valid date are those of one day. *)
Lemma toISODate_window date t :
  valid_date date →
  toISODate t = date ↔ parse date ≤ t ≤ parse date + (msPerDay - 1).
Proof.
  destruct date as [y m day]. unfold valid_date. simpl. intros [Hm Hday].
  unfold parse, MakeDate. simpl. rewrite MakeDay_in_year by lia. rewrite Z.add_0_r.
  rewrite Day_window. split.
  - intros [= Hyear Hmonth Hdate].
    unfold DateFromTime in Hdate. unfold DayWithinYear in Hdate.
    assert (Hleap : InLeapYear t = leap_flag y)
      by (unfold InLeapYear, leap_flag; by rewrite Hyear).
    rewrite Hyear, Hleap in Hdate. replace (MonthFromTime t) with (m - 1) in Hdate by lia.
    lia.
  - intros Hd.
    assert (Hmod : 0 ≤ t mod msPerDay < msPerDay)
      by (apply Z.mod_pos_bound; unfold msPerDay; lia).
    assert (Ht : t = Day t * msPerDay + t mod msPerDay)
      by (unfold Day, msPerDay; Z.div_mod_to_equations; lia).
    destruct (civil_of_day y m (day - 1) (t mod msPerDay) Hm ltac:(lia) Hmod)
      as (_ & Hyear & Hmonth & Hdate).
    replace (DayFromYear y + month_start (m - 1) (leap_flag y) + (day - 1))
      with (Day t) in Hyear, Hmonth, Hdate by lia.
    rewrite <- Ht in Hyear, Hmonth, Hdate.
    unfold toISODate. rewrite Hyear, Hmonth, Hdate. f_equal; lia.
Qed.

End calendar.

(** * The stock ledger: [ProductService.updateStock] *)

Section updateStock.
Import ProductService.

Lemma updateStock_not_found db id change :
  products db !! id = None →
  updateStock id change db = (Return None, db).
Proof. intros Hid. unfold updateStock, bind, findById. by rewrite Hid. Qed.

Lemma updateStock_throws db id change p :
  products db !! id = Some p →
  (first_stock p + change < 0)%Qc →
  updateStock id change db = (Throw (Error "Insufficient stock"), db).
Proof.
  intros Hid Hneg. unfold updateStock, bind, findById, first_stock in *.
  rewrite Hid. destruct (normalize p) as [v others]; simpl in *.
  by rewrite decide_True.
Qed.

Lemma updateStock_returns db id change p :
  products db !! id = Some p →
  ¬ (first_stock p + change < 0)%Qc →
  let v := fst (normalize p) in
  let p' := set_variants p (set_stock v (v_stock v + change)%Qc :: snd (normalize p)) in
  updateStock id change db
  = (Return (Some p'), set_products db (<[id := p']> (products db))).
Proof.
  intros Hid Hok. unfold updateStock, bind, findById, first_stock in *.
  rewrite Hid. destruct (normalize p) as [v others]; simpl in *.
  rewrite decide_False by done.
  unfold findByIdAndUpdate_variants. by rewrite Hid.
Qed.

Lemma normalize_nonneg p :
  Forall (λ v, (0 ≤ v_stock v)%Qc) (p_variants p) →
  (0 ≤ first_stock p)%Qc ∧ Forall (λ v, (0 ≤ v_stock v)%Qc) (snd (normalize p)).
Proof.
  unfold first_stock, normalize. destruct (p_variants p) as [|v vs]; simpl.
  - intros _. split; [done | constructor].
  - intros H. by inversion H.
Qed.

Lemma updateStock_preserves_nonneg db id change :
  stock_nonneg db → stock_nonneg (exec (updateStock id change) db).
Proof.
  intros Hinv. unfold exec.
  destruct (products db !! id) as [p|] eqn:Hid;
    [| by rewrite updateStock_not_found].
  destruct (decide (first_stock p + change < 0)%Qc) as [Hneg|Hok];
    [by rewrite (updateStock_throws _ _ _ p) |].
  rewrite (updateStock_returns _ _ _ p) by done.
  intros id' p'. simpl. destruct (decide (id = id')) as [<-|Hne].
  - rewrite lookup_insert_eq. intros [= <-]. simpl.
    destruct (normalize_nonneg p (Hinv _ _ Hid)) as [_ Hrest].
    constructor; [| done]. simpl. by apply Qcnot_lt_le.
  - rewrite lookup_insert_ne by done. apply Hinv.
Qed.

Lemma apply_updates_nonneg ops : ∀ db,
  stock_nonneg db → stock_nonneg (apply_updates ops db).
Proof.
  unfold apply_updates. induction ops as [|op ops IH]; intros db Hinv; [done |].
  simpl. apply IH. by apply updateStock_preserves_nonneg.
Qed.

(** C2. Starting from stocks that are all at least 0, after any sequence
    of [updateStock] calls (decrements and increments, on any products) no
    variant has a negative stock; and a call whose change would take the
    first variant's stock below 0 throws and leaves the database as it
    was. *)
Theorem updateStock_stock_never_negative (ops : list (string * number)) (db : Db) :
  stock_nonneg db →
  stock_nonneg (apply_updates ops db)
  ∧ ∀ db' id change p,
      products db' !! id = Some p →
      (first_stock p + change < 0)%Qc →
      updateStock id change db' = (Throw (Error "Insufficient stock"), db').
Proof.
  intros Hinv. split.
  - by apply apply_updates_nonneg.
  - intros db' id change p. apply updateStock_throws.
Qed.


Lemma one_phone_shop_nonneg : stock_nonneg one_phone_shop.
Proof.
  intros id p Hp. unfold one_phone_shop in Hp. cbn [products] in Hp.
  apply lookup_singleton_Some in Hp as [_ <-].
  repeat constructor. by vm_compute.
Qed.

(** In the shop with 5 phones: the second sale of three throws, and the
    stock is 6 after the delivery. *)
Lemma updateStock_stock_never_negative_example :
  stock_nonneg (apply_updates phone_updates one_phone_shop)
  ∧ first_stock <$> products (apply_updates phone_updates one_phone_shop) !! "p1"
    = Some (num 6).
Proof.
  split; [| by vm_compute].
  apply (updateStock_stock_never_negative phone_updates one_phone_shop).
  apply one_phone_shop_nonneg.
Defined.


End updateStock.

(** * Sale transactions: [NewSaleController.createSale] *)

Section createSale.
Import ProductService NewSaleController.

Lemma seen_stock_first_stock p :
  match head (p_variants p) with Some v => v_stock v | None => 0%Qc end
  = first_stock p.
Proof. unfold first_stock, normalize. by destruct (p_variants p). Qed.

Lemma seen_price_unit_price p :
  match head (p_variants p) with Some v => v_sellingPrice v | None => p_basePrice p end
  = unit_price p.
Proof. unfold unit_price. by destruct (p_variants p). Qed.


Lemma bind_findById {B} id (k : option Product → M B) db :
  bind (findById id) k db = k (products db !! id) db.
Proof. reflexivity. Qed.





















(** Half a phone: the line passes the checks, the stock is lowered to four
    and a half, and the save is refused by the schema, whose quantities
    start at 1; the request ends in a 500 and no sale is saved. *)
Lemma createSale_fractional_quantity :
  fst (createSale buy_half 0 one_phone_shop)
  = Throw (HttpException FailedToCreateSale INTERNAL_SERVER_ERROR)
  ∧ sales (exec (createSale buy_half 0) one_phone_shop) = []
  ∧ ∃ stock, first_stock <$> products (exec (createSale buy_half 0) one_phone_shop) !! "p1"
             = Some stock
           ∧ (stock * num 2)%Qc = num 9.
Proof.
  split; [by vm_compute |]. split; [by vm_compute |].
  eexists. split; [vm_compute; reflexivity |].
  apply Qc_is_canon. by vm_compute.
Qed.







(** ** Only the first variant is read or written *)
















End createSale.

(** * Sales reports: [SalesReportService] *)

Section reports.
Import JSDate SalesReportService.

Lemma sum_total_from docs : ∀ acc,
  fold_left (λ sum sale, (sum + s_total sale)%Qc) docs acc
  = (acc + revenue_sum docs)%Qc.
Proof.
  induction docs as [|sale docs IH]; intros acc; simpl.
  - ring.
  - rewrite IH. ring.
Qed.

Lemma sum_total_revenue_sum docs : sum_total docs = revenue_sum docs.
Proof. unfold sum_total. rewrite sum_total_from. ring. Qed.



(** ** The daily report *)

(** The daily report applies the formulas of the overview to the sales
    that the query returns. *)
Lemma getDailySalesReport_formulas tz date db :
  let r := getDailySalesReport tz date db in
  let scoped := mkDb (products db) (dr_sales r) in
  dr_sales r
  = find_between (JSDate.setHours tz (JSDate.parse date) 0 0 0 0)
                 (JSDate.setHours tz (JSDate.parse date) 23 59 59 999) (sales db)
  ∧ dr_totalSales r = ov_totalSales (getSalesOverview scoped)
  ∧ dr_totalRevenue r = ov_totalRevenue (getSalesOverview scoped)
  ∧ dr_averageOrderValue r = ov_averageOrderValue (getSalesOverview scoped).
Proof. done. Qed.

(** A sale is in the result of the query exactly when its time is within
    the bounds, both included. *)
Lemma find_between_spec startDate endDate docs sale :
  sale ∈ find_between startDate endDate docs
  ↔ sale ∈ docs ∧ startDate ≤ s_createdAt sale ≤ endDate.
Proof. unfold find_between. rewrite list_elem_of_filter. tauto. Qed.

(** On a host at UTC or east of it (by less than a day), the bounds are
    the first and the last millisecond of the local day [date]. *)
Lemma daily_window_east tz date :
  0 ≤ tz < JSDate.msPerDay →
  JSDate.setHours tz (JSDate.parse date) 0 0 0 0 = JSDate.parse date - tz
  ∧ JSDate.setHours tz (JSDate.parse date) 23 59 59 999
    = JSDate.parse date - tz + (JSDate.msPerDay - 1).
Proof.
  intros Htz.
  unfold JSDate.setHours, JSDate.parse, JSDate.LocalTime, JSDate.UTC,
    JSDate.MakeDate, JSDate.MakeTime, JSDate.Day, JSDate.msPerDay in *.
  set (day := JSDate.MakeDay _ _ _).
  replace ((day * 86400000 + 0 + tz) / 86400000) with day; [lia |].
  apply Z.div_unique with (r := tz); lia.
Qed.

(** On a host west of UTC they are the first and the last millisecond of
    the local day before [date]. *)
Lemma daily_window_west tz date :
  - JSDate.msPerDay ≤ tz < 0 →
  JSDate.setHours tz (JSDate.parse date) 0 0 0 0
  = JSDate.parse date - JSDate.msPerDay - tz
  ∧ JSDate.setHours tz (JSDate.parse date) 23 59 59 999
    = JSDate.parse date - JSDate.msPerDay - tz + (JSDate.msPerDay - 1).
Proof.
  intros Htz.
  unfold JSDate.setHours, JSDate.parse, JSDate.LocalTime, JSDate.UTC,
    JSDate.MakeDate, JSDate.MakeTime, JSDate.Day, JSDate.msPerDay in *.
  set (day := JSDate.MakeDay _ _ _).
  replace ((day * 86400000 + 0 + tz) / 86400000) with (day - 1); [lia |].
  apply Z.div_unique with (r := tz + 86400000); lia.
Qed.

(** At a host at UTC or east of it the daily report has exactly the sales
    whose local date is the date asked for. *)
Lemma getDailySalesReport_east_of_utc_local_day tz date db sale :
  0 ≤ tz < msPerDay → valid_date date →
  sale ∈ dr_sales (getDailySalesReport tz date db)
  ↔ sale ∈ sales db ∧ toISODate (LocalTime tz (s_createdAt sale)) = date.
Proof.
  intros Htz Hvalid. unfold getDailySalesReport. cbn [dr_sales].
  rewrite find_between_spec. destruct (daily_window_east tz date Htz) as [-> ->].
  rewrite (toISODate_window date _ Hvalid). unfold LocalTime. split; intros [? ?]; split; (done || lia).
Qed.

(** At a host west of UTC it has exactly the sales whose local date is the
    day before the date asked for. *)
Lemma getDailySalesReport_west_of_utc_day_before tz date db sale :
  - msPerDay ≤ tz < 0 → valid_date date →
  sale ∈ dr_sales (getDailySalesReport tz date db)
  ↔ sale ∈ sales db
    ∧ toISODate (LocalTime tz (s_createdAt sale) + msPerDay) = date.
Proof.
  intros Htz Hvalid. unfold getDailySalesReport. cbn [dr_sales].
  rewrite find_between_spec. destruct (daily_window_west tz date Htz) as [-> ->].
  rewrite (toISODate_window date _ Hvalid). unfold LocalTime. split; intros [? ?]; split; (done || lia).
Qed.

(** C8, on a host west of UTC.  In Bogota, the report for 15 March 2024
    leaves out the sale made at noon on 15 March (a 15 March sale in
    local time and in UTC alike) and takes in the one made at noon on
    14 March: the window is the local day before the date asked for. *)
Theorem getDailySalesReport_west_of_utc_previous_day :
  JSDate.toISODate (s_createdAt sale_on_march_15) = march_15
  ∧ JSDate.toISODate (JSDate.LocalTime tz_bogota (s_createdAt sale_on_march_15))
    = march_15
  ∧ dr_sales (getDailySalesReport tz_bogota march_15 two_day_shop)
    = [sale_on_march_14]
  ∧ dr_totalSales (getDailySalesReport tz_bogota march_15 two_day_shop) = 1%nat
  ∧ dr_totalRevenue (getDailySalesReport tz_bogota march_15 two_day_shop) = num 20.
Proof. repeat split; by vm_compute. Qed.

(** The same report on a host at UTC has the sale of 15 March. *)
Lemma getDailySalesReport_utc_same_day :
  dr_sales (getDailySalesReport tz_utc march_15 two_day_shop) = [sale_on_march_15].
Proof. by vm_compute. Qed.

(** ** The product report *)

Lemma fold_left_concat {A B} (f : A → B → A) (ls : list (list B)) : ∀ a,
  fold_left (λ acc l, fold_left f l acc) ls a = fold_left f (concat ls) a.
Proof.
  induction ls as [|l ls IH]; intros a; simpl; [done |].
  by rewrite IH, fold_left_app.
Qed.

Lemma product_stats_all_items db :
  product_stats db = fold_left (count_item db) (all_items db) [].
Proof.
  unfold product_stats, all_items. rewrite <- fold_left_concat.
  generalize (@nil (string * ProductSalesReport)).
  induction (sales db) as [|sale docs IH]; intros acc; simpl; [done | apply IH].
Qed.

Lemma quantity_sum_snoc items it :
  quantity_sum (items ++ [it]) = (quantity_sum items + si_quantity it)%Qc.
Proof.
  unfold quantity_sum. induction items as [|x items IH]; simpl.
  - ring.
  - rewrite IH. ring.
Qed.

Lemma line_sum_snoc items it :
  line_sum (items ++ [it]) = (line_sum items + si_price it * si_quantity it)%Qc.
Proof.
  unfold line_sum. induction items as [|x items IH]; simpl.
  - ring.
  - rewrite IH. ring.
Qed.

Lemma first_occurrences_snoc ids id :
  first_occurrences (ids ++ [id])
  = if decide (id ∈ first_occurrences ids) then first_occurrences ids
    else first_occurrences ids ++ [id].
Proof. unfold first_occurrences. by rewrite fold_left_app. Qed.

Lemma counted_snoc db items it :
  counted db (items ++ [it])
  = counted db items
    ++ match products db !! si_productId it with Some _ => [it] | None => [] end.
Proof.
  unfold counted. rewrite filter_app. f_equal.
  rewrite filter_cons, filter_nil.
  destruct (products db !! si_productId it) eqn:Hp.
  - rewrite decide_True; [done | by eexists].
  - rewrite decide_False; [done |]. by intros [? ?].
Qed.

Lemma items_of_snoc db id items it :
  items_of db id (items ++ [it])
  = items_of db id items
    ++ match products db !! si_productId it with
       | Some _ => if decide (si_productId it = id) then [it] else []
       | None => []
       end.
Proof.
  unfold items_of. rewrite counted_snoc, filter_app. f_equal.
  destruct (products db !! si_productId it); [| done].
  rewrite filter_cons, filter_nil. by case_decide.
Qed.

Lemma report_of_ext db id items1 items2 :
  items_of db id items1 = items_of db id items2 →
  report_of db id items1 = report_of db id items2.
Proof. intros Heq. unfold report_of. by rewrite Heq. Qed.

(** What the map of the product report holds after any number of line
    items: the products counted so far, in the order in which they first
    occurred, each with the entry made from its line items. *)
Lemma count_items_spec db items :
  JSMap.keys (fold_left (count_item db) items [])
  = first_occurrences (si_productId <$> counted db items)
  ∧ ∀ id, JSMap.get id (fold_left (count_item db) items [])
          = if decide (items_of db id items = []) then None
            else Some (report_of db id items).
Proof.
  induction items as [|it items [IHkeys IHget]] using rev_ind; [done |].
  rewrite fold_left_app. cbn [fold_left].
  set (m := fold_left (count_item db) items []) in *.
  unfold count_item, populate. rewrite counted_snoc.
  destruct (products db !! si_productId it) as [product|] eqn:Hp.
  - split.
    + rewrite keys_set, fmap_app.
      change (si_productId <$> [it]) with [si_productId it].
      by rewrite first_occurrences_snoc, IHkeys.
    + intros id. rewrite items_of_snoc, Hp.
      destruct (decide (si_productId it = id)) as [<-|Hne].
      * rewrite get_set_eq. rewrite decide_False by (by destruct (items_of _ _ _)).
        f_equal. unfold report_of at 1. rewrite items_of_snoc, Hp, decide_True by done.
        rewrite quantity_sum_snoc, line_sum_snoc. cbn [from_option].
        rewrite IHget.
        destruct (decide (items_of db (si_productId it) items = [])) as [Hempty|_];
          cbn [default].
        -- by rewrite Hempty.
        -- unfold report_of. simpl. by rewrite Hp.
      * rewrite get_set_ne by done. rewrite app_nil_r.
        rewrite (report_of_ext db id (items ++ [it]) items); [apply IHget |].
        by rewrite items_of_snoc, Hp, decide_False, app_nil_r.
  - rewrite !app_nil_r. split; [done |]. intros id.
    rewrite items_of_snoc, Hp, app_nil_r.
    rewrite (report_of_ext db id (items ++ [it]) items); [apply IHget |].
    by rewrite items_of_snoc, Hp, app_nil_r.
Qed.

Lemma first_occurrences_NoDup ids : NoDup (first_occurrences ids).
Proof.
  induction ids as [|id ids IH] using rev_ind; [constructor |].
  rewrite first_occurrences_snoc. case_decide as Hin; [done |].
  apply NoDup_app. split; [done |]. split; [| apply NoDup_singleton].
  intros x Hx Hid. apply list_elem_of_singleton in Hid. by subst.
Qed.



(** Every entry of the map is the entry made from the line items of its
    key, and there are such line items. *)
Lemma product_stats_entries db id r :
  (id, r) ∈ product_stats db →
  r = report_of db id (all_items db) ∧ items_of db id (all_items db) ≠ [].
Proof.
  rewrite product_stats_all_items.
  destruct (count_items_spec db (all_items db)) as [Hkeys Hget].
  intros Hin. apply elem_get_Some in Hin.
  - rewrite Hget in Hin. case_decide; [done |]. by injection Hin as <-.
  - rewrite Hkeys. apply first_occurrences_NoDup.
Qed.






(** ** The monthly report *)

(** One turn of the loop. *)
Lemma fill_days_unfold tz fuel currentDate endDate dailyStats :
  fill_days tz fuel currentDate endDate dailyStats
  = if currentDate <=? endDate then
      match fuel with
      | O => None
      | S fuel' =>
          fill_days tz fuel'
            (JSDate.setDate tz currentDate (JSDate.getDate tz currentDate + 1))
            endDate
            (JSMap.set (JSDate.toISODate currentDate) (mkDayStats 0 0%Qc) dailyStats)
      end
    else Some dailyStats.
Proof. by destruct fuel. Qed.

(** More fuel does not change a result. *)
Lemma fill_days_more_fuel tz endDate fuel : ∀ currentDate dailyStats result,
  fill_days tz fuel currentDate endDate dailyStats = Some result →
  fill_days tz (S fuel) currentDate endDate dailyStats = Some result.
Proof.
  induction fuel as [|fuel IH]; intros currentDate dailyStats result;
    rewrite (fill_days_unfold tz (S _)), (fill_days_unfold tz _ currentDate);
    destruct (currentDate <=? endDate); try done.
  apply IH.
Qed.

(** Nor does it change a report. *)
Lemma getMonthlySalesReport_more_fuel tz fuel month year db r :
  getMonthlySalesReport tz fuel month year db = Some r →
  getMonthlySalesReport tz (S fuel) month year db = Some r.
Proof.
  unfold getMonthlySalesReport.
  destruct (fill_days tz fuel _ _ []) as [stats|] eqn:Hfill; [| done].
  by rewrite (fill_days_more_fuel _ _ _ _ _ _ Hfill).
Qed.

(** The rest of this section is about a host at UTC. *)

Lemma daysInMonth_pos m y : 28 ≤ daysInMonth m y ≤ 31.
Proof. unfold daysInMonth. repeat case_match; lia. Qed.

(** The bounds of the query: the first millisecond of the first day and
    the last millisecond of the last day of the month. *)
Lemma month_bounds y m :
  1 ≤ m ≤ 12 → ¬ (0 ≤ y ≤ 99) →
  new_Date 0 y (m - 1) 1 0 0 0 0 = first_day y m * msPerDay
  ∧ new_Date 0 y m 0 23 59 59 999
    = (first_day y m + daysInMonth m y - 1) * msPerDay + (msPerDay - 1).
Proof.
  intros Hm Hy. unfold new_Date, UTC, MakeDate, MakeTime.
  assert (Hyr : (if (0 <=? y) && (y <=? 99) then 1900 + y else y) = y).
  { destruct (0 <=? y) eqn:H0, (y <=? 99) eqn:H99; simpl; try done.
    apply Z.leb_le in H0, H99. lia. }
  rewrite Hyr, MakeDay_last by done. rewrite MakeDay_in_year by lia.
  unfold first_day, msPerDay. lia.
Qed.

(** Within the month, the loop variable is at midnight of a day of the
    month, is entered under that day, and moves on to the next midnight. *)
Lemma setDate_next y m k :
  1 ≤ m ≤ 12 → 0 ≤ k < daysInMonth m y →
  let current := (first_day y m + k) * msPerDay in
  toISODate current = mkIsodate y m (k + 1)
  ∧ setDate 0 current (getDate 0 current + 1) = (first_day y m + (k + 1)) * msPerDay.
Proof.
  intros Hm Hk current.
  assert (Ht : 0 ≤ 0 < msPerDay) by (unfold msPerDay; lia).
  destruct (civil_of_day y m k 0 Hm Hk Ht) as (Hday & Hyear & Hmonth & Hdate).
  fold (first_day y m) in Hday, Hyear, Hmonth, Hdate.
  rewrite Z.add_0_r in Hday, Hyear, Hmonth, Hdate. fold current in Hday, Hyear, Hmonth, Hdate.
  split.
  - unfold toISODate. rewrite Hyear, Hmonth, Hdate. f_equal. lia.
  - unfold setDate, getDate, LocalTime, UTC. rewrite !Z.add_0_r, Z.sub_0_r.
    rewrite Hyear, Hmonth, Hdate. rewrite MakeDay_in_year by lia.
    unfold MakeDate, TimeWithinDay, current.
    rewrite Z.mod_mul by (unfold msPerDay; lia). unfold first_day. lia.
Qed.

(** From day [k] on, with at least as much fuel as days are left, the loop
    appends the remaining days of the month. *)
Lemma fill_days_utc y m :
  1 ≤ m ≤ 12 →
  ∀ (j : nat) k acc fuel,
    0 ≤ k → k + Z.of_nat j = daysInMonth m y → (j ≤ fuel)%nat →
    (∀ d, d ∈ JSMap.keys acc → iso_day d ≤ k) →
    fill_days 0 fuel ((first_day y m + k) * msPerDay)
      ((first_day y m + daysInMonth m y - 1) * msPerDay + (msPerDay - 1)) acc
    = Some (acc ++ ((λ i, (mkIsodate y m i, no_sales)) <$> seqZ (k + 1) (Z.of_nat j))).
Proof.
  intros Hm. induction j as [|j IH]; intros k acc fuel Hk Hkj Hfuel Hkeys;
    rewrite fill_days_unfold.
  - rewrite (proj2 (Z.leb_gt _ _)) by (unfold msPerDay; lia).
    by rewrite seqZ_nil, app_nil_r by done.
  - rewrite (proj2 (Z.leb_le _ _)) by (unfold msPerDay; lia).
    destruct fuel as [|fuel]; [lia |].
    destruct (setDate_next y m k Hm ltac:(lia)) as [-> ->].
    rewrite set_fresh.
    + rewrite IH; [| lia | lia | lia |].
      * rewrite <- app_assoc. do 2 f_equal.
        rewrite (seqZ_cons (k + 1)) by lia. cbn [fmap list_fmap].
        do 3 f_equal; lia.
      * intros d. unfold JSMap.keys. rewrite fmap_app, elem_of_app.
        intros [Hd|Hd]; [apply Hkeys in Hd; lia |].
        apply list_elem_of_singleton in Hd. subst d. simpl. lia.
    + intros Hin. apply Hkeys in Hin. simpl in Hin. lia.
Qed.

(** Counting a sale whose date is a key keeps the keys. *)
Lemma count_sales_keys docs : ∀ st,
  Forall (λ sale, toISODate (s_createdAt sale) ∈ JSMap.keys st) docs →
  JSMap.keys (fold_left count_sale docs st) = JSMap.keys st.
Proof.
  induction docs as [|sale docs IH]; intros st Hdocs; [done |].
  apply list.Forall_cons in Hdocs as [Hsale Hdocs]. cbn [fold_left].
  assert (Hkeys : JSMap.keys (count_sale st sale) = JSMap.keys st).
  { unfold count_sale. rewrite keys_set. by rewrite decide_True. }
  rewrite IH; [done |]. by rewrite Hkeys.
Qed.

(** The entry of a date that is a key counts the sales of that date. *)
Lemma count_sales_get d docs : ∀ st s0,
  JSMap.get d st = Some s0 →
  JSMap.get d (fold_left count_sale docs st)
  = Some (mkDayStats (ds_sales s0 + length (sales_on d docs))
                     (ds_revenue s0 + revenue_sum (sales_on d docs))%Qc).
Proof.
  unfold sales_on.
  induction docs as [|sale docs IH]; intros st s0 Hget; cbn [fold_left].
  - rewrite filter_nil. simpl. rewrite Hget. destruct s0 as [n rev]. simpl.
    f_equal. f_equal; [lia | ring].
  - rewrite filter_cons. destruct (decide (toISODate (s_createdAt sale) = d)) as [Hd|Hd].
    + erewrite IH; [| unfold count_sale; rewrite Hd, get_set_eq; reflexivity].
      rewrite Hget. simpl. f_equal. f_equal; [lia | ring].
    + apply IH. unfold count_sale. by rewrite get_set_ne.
Qed.

(** At UTC, a sale within the bounds of the month has one of its dates. *)
Lemma month_sales_dates y m t :
  1 ≤ m ≤ 12 →
  first_day y m * msPerDay ≤ t
  ≤ (first_day y m + daysInMonth m y - 1) * msPerDay + (msPerDay - 1) →
  toISODate t ∈ month_dates y m.
Proof.
  intros Hm Ht.
  set (k := t / msPerDay - first_day y m).
  assert (Hdiv : t = (first_day y m + k) * msPerDay + t mod msPerDay).
  { subst k. unfold msPerDay. Z.div_mod_to_equations; lia. }
  assert (Hmod : 0 ≤ t mod msPerDay < msPerDay)
    by (apply Z.mod_pos_bound; unfold msPerDay; lia).
  assert (Hk : 0 ≤ k < daysInMonth m y).
  { unfold msPerDay in *. nia. }
  destruct (civil_of_day y m k (t mod msPerDay) Hm Hk Hmod)
    as (_ & Hyear & Hmonth & Hdate).
  fold (first_day y m) in Hyear, Hmonth, Hdate. rewrite <- Hdiv in Hyear, Hmonth, Hdate.
  unfold toISODate, month_dates. rewrite Hyear, Hmonth, Hdate.
  replace (m - 1 + 1) with m by lia.
  apply list_elem_of_fmap_2, elem_of_seqZ. lia.
Qed.

(** The dates of a month: as many as it has days, all different, in
    ascending order. *)
Lemma month_dates_keys y m :
  JSMap.keys ((λ i, (mkIsodate y m i, no_sales)) <$> seqZ 1 (daysInMonth m y))
  = month_dates y m.
Proof. unfold JSMap.keys, month_dates. by rewrite <- list_fmap_compose. Qed.

Lemma month_dates_NoDup y m : NoDup (month_dates y m).
Proof.
  unfold month_dates. apply NoDup_fmap_2; [| apply NoDup_seqZ].
  by intros i j [=].
Qed.

Lemma month_dates_length y m :
  length (month_dates y m) = Z.to_nat (daysInMonth m y).
Proof. unfold month_dates. by rewrite length_fmap, length_seqZ. Qed.

Lemma month_dates_ascending y m : StronglySorted isodate_lt (month_dates y m).
Proof.
  unfold month_dates. generalize 1. generalize (daysInMonth m y).
  intros n. destruct (decide (n ≤ 0)) as [Hn|Hn].
  { intros i. rewrite seqZ_nil by done. constructor. }
  rewrite <- (Z2Nat.id n) by lia. induction (Z.to_nat n) as [|j IH]; intros i.
  - rewrite seqZ_nil by done. constructor.
  - rewrite seqZ_cons by lia. replace (Z.pred (Z.of_nat (S j))) with (Z.of_nat j) by lia.
    cbn [fmap list_fmap]. constructor; [apply IH |].
    apply list.Forall_forall. intros d Hd.
    apply list_elem_of_fmap in Hd as (i' & -> & Hi'). apply elem_of_seqZ in Hi'.
    unfold isodate_lt. simpl. right. split; [done |]. right. split; [done | lia].
Qed.

(** At a host at UTC the entries of the report are those of the days of the
    month, each with the number and the revenue of its sales. *)
Lemma getMonthlySalesReport_utc_entries (db : Db) (month year : Z) (fuel : nat) :
  1 ≤ month ≤ 12 → ¬ (0 ≤ year ≤ 99) →
  (Z.to_nat (daysInMonth month year) ≤ fuel)%nat →
  ∃ r, getMonthlySalesReport 0 fuel month year db = Some r
     ∧ report_dates r = month_dates year month
     ∧ ∀ e, e ∈ mr_dailyStats r →
         dst_sales e = length (sales_on (dst_date e) (month_sales 0 month year db))
         ∧ dst_revenue e = revenue_sum (sales_on (dst_date e) (month_sales 0 month year db)).
Proof.
  intros Hm Hy Hfuel.
  destruct (month_bounds year month Hm Hy) as [Hstart Hend].
  pose proof (daysInMonth_pos month year) as Hdays.
  unfold getMonthlySalesReport. fold (month_sales 0 month year db).
  rewrite Hstart, Hend.
  pose proof (fill_days_utc year month Hm (Z.to_nat (daysInMonth month year)) 0 [] fuel)
    as Hfill.
  rewrite Z.add_0_r in Hfill. rewrite Hfill; [| lia | lia | lia |]; clear Hfill.
  2:{ intros d Hd. by apply elem_of_nil in Hd. }
  rewrite Z2Nat.id by lia. cbn [app Z.add].
  set (st0 := (λ i, (mkIsodate year month i, no_sales)) <$> seqZ 1 (daysInMonth month year)).
  set (docs := month_sales 0 month year db).
  assert (Hdocs : Forall (λ sale, toISODate (s_createdAt sale) ∈ JSMap.keys st0) docs).
  { apply list.Forall_forall. intros sale Hsale. subst st0. rewrite month_dates_keys.
    apply find_between_spec in Hsale as [_ Hrange].
    rewrite Hstart, Hend in Hrange. by apply month_sales_dates. }
  pose proof (count_sales_keys docs st0 Hdocs) as Hkeys.
  subst st0. rewrite month_dates_keys in Hkeys.
  set (st0 := (λ i, (mkIsodate year month i, no_sales)) <$> seqZ 1 (daysInMonth month year))
    in *.
  eexists. split; [reflexivity |]. split.
  - unfold report_dates. cbn [mr_dailyStats]. rewrite <- Hkeys. unfold JSMap.keys.
    rewrite <- list_fmap_compose. apply list_fmap_ext. by intros i [date stats].
  - intros e He. cbn [mr_dailyStats] in He.
    apply list_elem_of_fmap in He as ([date stats] & -> & Hin). cbn [dst_date dst_sales dst_revenue].
    assert (Hnodup : NoDup (JSMap.keys (fold_left count_sale docs st0)))
      by (rewrite Hkeys; apply month_dates_NoDup).
    apply (elem_get_Some _ _ _ Hnodup) in Hin.
    assert (Hdate : date ∈ month_dates year month).
    { rewrite <- Hkeys. apply get_Some_elem in Hin. unfold JSMap.keys.
      apply list_elem_of_fmap. by exists (date, stats). }
    assert (Hinit : JSMap.get date st0 = Some no_sales).
    { apply elem_get_Some.
      - subst st0. rewrite month_dates_keys. apply month_dates_NoDup.
      - unfold month_dates in Hdate. apply list_elem_of_fmap in Hdate as (i & -> & Hi).
        subst st0. apply list_elem_of_fmap. by exists i. }
    rewrite (count_sales_get date docs st0 no_sales Hinit) in Hin.
    injection Hin as <-. simpl. split; [done | ring].
Qed.

(** At a host at UTC, for a month from 1 to 12 and a year that is not
    from 0 to 99, the loop ends within as many iterations as the month has
    days, and the report has one entry for each day of the month, first to
    last, with the number and the revenue of the sales of that day. *)
Lemma getMonthlySalesReport_utc_dense (db : Db) (month year : Z) (fuel : nat) :
  1 ≤ month ≤ 12 → ¬ (0 ≤ year ≤ 99) →
  (Z.to_nat (daysInMonth month year) ≤ fuel)%nat →
  ∃ r, getMonthlySalesReport 0 fuel month year db = Some r
     ∧ report_dates r = month_dates year month
     ∧ length (report_dates r) = Z.to_nat (daysInMonth month year)
     ∧ NoDup (report_dates r)
     ∧ StronglySorted isodate_lt (report_dates r)
     ∧ ∀ e, e ∈ mr_dailyStats r →
         (dst_sales e = length (sales_on (dst_date e) (month_sales 0 month year db))
          ∧ dst_revenue e
            = revenue_sum (sales_on (dst_date e) (month_sales 0 month year db)))
         ∧ (sales_on (dst_date e) (sales db) = [] →
            dst_sales e = 0%nat ∧ dst_revenue e = 0%Qc).
Proof.
  intros Hm Hy Hfuel.
  destruct (getMonthlySalesReport_utc_entries db month year fuel Hm Hy Hfuel)
    as (r & Hr & Hdates & Hentries).
  exists r. split; [done |]. split; [done |]. rewrite Hdates.
  split; [apply month_dates_length |]. split; [apply month_dates_NoDup |].
  split; [apply month_dates_ascending |].
  intros e He. destruct (Hentries e He) as [Hn Hrev]. split; [done |].
  intros Hnone.
  assert (Hin : sales_on (dst_date e) (month_sales 0 month year db) = []).
  { apply elem_of_nil_inv. intros sale Hsale.
    unfold sales_on, month_sales, find_between in Hsale.
    apply list_elem_of_filter in Hsale as [Hdate Hsale].
    apply list_elem_of_filter in Hsale as [_ Hsale].
    assert (Hon : sale ∈ sales_on (dst_date e) (sales db))
      by (by apply list_elem_of_filter).
    rewrite Hnone in Hon. by apply elem_of_nil in Hon. }
  by rewrite Hn, Hrev, Hin.
Qed.

(** C5, on hosts away from UTC.  In Colombo the report for March 2024 of a
    shop without sales has 31 entries, but they run from 29 February to
    30 March: the days are entered by their UTC date, and local midnight
    is still the day before in UTC.  In Bogota, a sale made at 22:00 on
    31 March is within the month, is counted under 1 April, its UTC date,
    and makes a 32nd entry. *)
Theorem getMonthlySalesReport_off_utc_wrong_days :
  (∃ r, getMonthlySalesReport tz_colombo 31 3 2024 one_phone_shop = Some r
        ∧ length (report_dates r) = 31%nat
        ∧ head (report_dates r) = Some (JSDate.mkIsodate 2024 2 29)
        ∧ list.last (report_dates r) = Some (JSDate.mkIsodate 2024 3 30)
        ∧ (JSDate.mkIsodate 2024 3 31 ∉ report_dates r)
        ∧ report_dates r ≠ month_dates 2024 3)
  ∧ (∃ r, getMonthlySalesReport tz_bogota 31 3 2024 late_sale_shop = Some r
          ∧ mr_totalSales r = 1%nat
          ∧ length (report_dates r) = 32%nat
          ∧ list.last (mr_dailyStats r)
            = Some (mkDailyStat (JSDate.mkIsodate 2024 4 1) 1 (num 10))).
Proof.
  split.
  - eexists. split; [vm_compute; reflexivity |].
    split; [by vm_compute |]. split; [by vm_compute |]. split; [by vm_compute |].
    split; [apply (bool_decide_unpack _); by vm_compute |].
    intros Heq. apply (f_equal head) in Heq. vm_compute in Heq. discriminate.
  - eexists. split; [vm_compute; reflexivity |].
    split; [by vm_compute |]. split; by vm_compute.
Qed.

(** At a host at UTC the same month has its own 31 days. *)
Lemma getMonthlySalesReport_utc_march :
  report_dates <$> getMonthlySalesReport tz_utc 31 3 2024 one_phone_shop
  = Some (month_dates 2024 3).
Proof. by vm_compute. Qed.

(** A year from 0 to 99 is taken for 1900 + year by [new Date]: at UTC, the
    report for February of the year 0, which has 29 days, has the 28 days
    of February 1900. *)
Lemma getMonthlySalesReport_two_digit_year :
  daysInMonth 2 0 = 29
  ∧ report_dates <$> getMonthlySalesReport tz_utc 28 2 0 one_phone_shop
    = Some (month_dates 1900 2).
Proof. split; by vm_compute. Qed.

End reports.

(** * The stock ledger, continued *)

Section stock_ledger.
Import ProductService.









(** X3. A product without variants.  A change that is not negative gives
    the product one variant, called default, with the prices of the
    product and the change as its stock, and stores it; a negative change
    throws and stores nothing, so the product still has no variant. *)
Theorem updateStock_default_variant (db : Db) (id : string) (p : Product)
  (change : number) :
  products db !! id = Some p →
  p_variants p = [] →
  ((0 ≤ change)%Qc →
   let p' := set_variants p
               [mkVariant "default" None None None
                          (p_purchasedPrice p) (p_sellingPrice p) change] in
   updateStock id change db
   = (Return (Some p'), set_products db (<[id := p']> (products db))))
  ∧ ((change < 0)%Qc →
     updateStock id change db = (Throw (Error "Insufficient stock"), db)).
Proof.
  intros Hp Hvs.
  assert (Hfirst : first_stock p = 0%Qc)
    by (unfold first_stock, normalize; by rewrite Hvs).
  split.
  - intros Hchange p'.
    rewrite (updateStock_returns db id change p Hp)
      by (rewrite Hfirst; qc_lra).
    unfold p', normalize. rewrite Hvs. unfold default_variant, set_stock. simpl.
    by rewrite Qcplus_0_l.
  - intros Hchange. apply (updateStock_throws db id change p Hp).
    rewrite Hfirst. qc_lra.
Qed.

(** Four gift cards arrive; taking one out of none throws. *)
Lemma updateStock_default_variant_example :
  ((0 ≤ num 4)%Qc →
   let p' := set_variants gift_card
               [mkVariant "default" None None None
                          (p_purchasedPrice gift_card) (p_sellingPrice gift_card)
                          (num 4)] in
   updateStock "g1" (num 4) gift_shop
   = (Return (Some p'), set_products gift_shop (<["g1" := p']> (products gift_shop))))
  ∧ ((num 4 < 0)%Qc →
     updateStock "g1" (num 4) gift_shop = (Throw (Error "Insufficient stock"), gift_shop)).
Proof.
  apply (updateStock_default_variant gift_shop "g1" gift_card (num 4));
    reflexivity.
Defined.


End stock_ledger.

(** * Sales, continued *)

Section createSale_more.
Import ProductService NewSaleController.

Ltac find_product :=
  match goal with
  | |- context [bind (findById ?id) ?k ?d] => rewrite (bind_findById id)
  end.

Lemma line_error_None db l : line_error db l = None ↔ line_ok db l.
Proof.
  unfold line_error, line_ok.
  destruct (decide (l_quantity l ≤ 0)%Qc) as [Hq|Hq].
  - split; [done |]. destruct (products db !! l_productId l); [| done].
    intros [Hpos _]. exfalso. by apply (Qclt_not_le _ _ Hpos).
  - destruct (products db !! l_productId l) as [p|]; [| done].
    case_decide as Hs.
    + split; [done |]. intros [_ Hle]. exfalso. by apply (Qclt_not_le _ _ Hs).
    + split; [| done]. intros _.
      split; [by apply Qcnot_le_lt | by apply Qcnot_lt_le].
Qed.

Lemma process_items_first_failure db good bad rest e : ∀ saleItems total,
  Forall (line_ok db) good →
  line_error db bad = Some e →
  process_items (good ++ bad :: rest) saleItems total db = (Throw e, db).
Proof.
  induction good as [|item good IH]; intros saleItems total Hok Hbad.
  - cbn [app process_items]. unfold line_error in Hbad.
    destruct (decide (l_quantity bad ≤ 0)%Qc) as [Hq|Hq]; [by inversion Hbad |].
    find_product.
    destruct (products db !! l_productId bad) as [p|] eqn:Hp; [| by inversion Hbad].
    rewrite seen_stock_first_stock, seen_price_unit_price.
    case_decide as Hs; [by inversion Hbad | done].
  - inversion Hok as [|? ? Hitem Hgood]; subst.
    cbn [app process_items]. unfold line_ok in Hitem.
    destruct (products db !! l_productId item) as [p|] eqn:Hp; [| done].
    destruct Hitem as [Hq Hs].
    rewrite decide_False by (by apply Qclt_not_le).
    find_product. rewrite Hp.
    rewrite seen_stock_first_stock, seen_price_unit_price.
    rewrite decide_False by (by apply Qcle_not_lt).
    by apply IH.
Qed.











End createSale_more.

(** * Products: creating, deleting, and what is on offer *)

Section products.
Import ProductService NewSaleController.
Context (ProductSchema_valid : CreateProductDto → Prop)
        `{!∀ dto, Decision (ProductSchema_valid dto)}.
Context (categories : gmap string Category).

Local Abbreviation createProduct :=
  (ProductController.createProduct ProductSchema_valid categories).

Lemma check_variants_None vs :
  ProductController.check_variants vs = None ↔ Forall variant_ok vs.
Proof.
  induction vs as [|v vs IH]; cbn [ProductController.check_variants].
  - split; [constructor | done].
  - destruct (decide (v_purchasedPrice v ≤ 0 ∨ v_sellingPrice v ≤ 0)%Qc) as [Hp|Hp].
    + split; [done |]. intros Hall. apply Forall_cons in Hall as [(H1 & H2 & _) _].
      exfalso. destruct Hp as [Hp|Hp]; qc_lra.
    + destruct (decide (v_stock v < 0)%Qc) as [Hs|Hs].
      * split; [done |]. intros Hall.
        apply Forall_cons in Hall as [(_ & _ & H3) _]. exfalso. qc_lra.
      * rewrite IH. split.
        -- intros Hvs. constructor; [| done]. unfold variant_ok.
           split; [apply Qcnot_le_lt; tauto |].
           split; [apply Qcnot_le_lt; tauto | by apply Qcnot_lt_le].
        -- intros Hall. by apply Forall_cons in Hall as [_ ?].
Qed.

Lemma check_variants_Some vs message :
  ProductController.check_variants vs = Some message → ¬ Forall variant_ok vs.
Proof. intros Hsome Hall. apply check_variants_None in Hall. congruence. Qed.

Lemma check_categories_None dto :
  ProductController.check_categories categories dto = None
  ↔ categories_ok categories dto.
Proof.
  unfold ProductController.check_categories, categories_ok, child_of.
  destruct (categories !! cp_mainCategory dto) as [main|] eqn:Hmain;
    [| split; [done | by intros [[? ?] _]]].
  destruct (ProductController.truthy (cp_subCategory dto)) as [sub|];
    [| split; [by eauto | done]].
  destruct (categories !! sub) as [subCategory|] eqn:Hsub;
    [| split; [done | by intros [_ [(c & ? & _) _]]]].
  destruct (decide (c_parentId subCategory ≠ Some (cp_mainCategory dto)))
    as [Hparent|Hparent];
    [split; [done | intros [_ [(c & [= <-] & ?) _]]; done] |].
  apply dec_stable in Hparent.
  destruct (ProductController.truthy (cp_subSubCategory dto)) as [subSub|];
    [| split; [by eauto 10 | done]].
  destruct (categories !! subSub) as [subSubCategory|] eqn:HsubSub;
    [| split; [done | by intros [_ [_ (c & ? & _)]]]].
  destruct (decide (c_parentId subSubCategory ≠ Some sub)) as [Hparent'|Hparent'];
    [split; [done | intros [_ [_ (c & [= <-] & ?)]]; done] |].
  apply dec_stable in Hparent'. split; [by eauto 10 | done].
Qed.

Lemma with_default_categories dto :
  ProductController.check_categories categories (with_default dto)
  = ProductController.check_categories categories dto.
Proof. unfold with_default. by destruct (cp_variants dto). Qed.

(** The three ways [createProduct] can go. *)
Lemma createProduct_cases newId dto db :
  (request_ok dto ∧ categories_ok categories dto
   ∧ ProductSchema_valid (with_default dto)
   ∧ createProduct newId dto db
     = (Respond (product_of (with_default dto)),
        set_products db (<[newId := product_of (with_default dto)]> (products db))))
  ∨ (request_ok dto ∧ categories_ok categories dto
     ∧ ¬ ProductSchema_valid (with_default dto)
     ∧ createProduct newId dto db
       = (Reject "Failed to create product" INTERNAL_SERVER_ERROR, db))
  ∨ (¬ (request_ok dto ∧ categories_ok categories dto)
     ∧ ∃ message, createProduct newId dto db = (Reject message BAD_REQUEST, db)).
Proof.
  unfold ProductController.createProduct.
  case_decide as Htext;
    [right; right; split; [intros [[(? & ? & ? & ?) _] _]; tauto | by eexists] |].
  case_decide as Hprice; [right; right; split; [| by eexists] |].
  { intros [(_ & (H1 & H2 & H3) & _) _]. destruct Hprice as [Hp|[Hp|Hp]]; qc_lra. }
  case_decide as Himg0;
    [right; right; split; [intros [(_ & _ & ? & _) _]; lia | by eexists] |].
  case_decide as Himg3;
    [right; right; split; [intros [(_ & _ & ? & _) _]; lia | by eexists] |].
  assert (Hfields : Forall variant_ok (cp_variants dto) → request_ok dto).
  { intros Hall. split; [repeat split; intros Heq; apply Htext; tauto |].
    split; [| split; [lia | done]].
    repeat split; apply Qcnot_le_lt; intros Hle; apply Hprice; tauto. }
  assert (Hstore : ∀ dto',
    dto' = with_default dto →
    Forall variant_ok (cp_variants dto) →
    (request_ok dto ∧ categories_ok categories dto
     ∧ ProductSchema_valid (with_default dto)
     ∧ match ProductController.check_categories categories dto' with
       | Some message => (Reject message BAD_REQUEST, db)
       | None =>
           match ProductStore.create ProductSchema_valid newId dto' db with
           | (Return product, db') => (Respond product, db')
           | (Throw error, db') => (ProductController.createProduct_catch error, db')
           end
       end
       = (Respond (product_of (with_default dto)),
          set_products db (<[newId := product_of (with_default dto)]> (products db))))
    ∨ (request_ok dto ∧ categories_ok categories dto
       ∧ ¬ ProductSchema_valid (with_default dto)
       ∧ match ProductController.check_categories categories dto' with
         | Some message => (Reject message BAD_REQUEST, db)
         | None =>
             match ProductStore.create ProductSchema_valid newId dto' db with
             | (Return product, db') => (Respond product, db')
             | (Throw error, db') => (ProductController.createProduct_catch error, db')
             end
         end
         = (Reject "Failed to create product" INTERNAL_SERVER_ERROR, db))
    ∨ (¬ (request_ok dto ∧ categories_ok categories dto)
       ∧ ∃ message,
           match ProductController.check_categories categories dto' with
           | Some message => (Reject message BAD_REQUEST, db)
           | None =>
               match ProductStore.create ProductSchema_valid newId dto' db with
               | (Return product, db') => (Respond product, db')
               | (Throw error, db') => (ProductController.createProduct_catch error, db')
               end
           end
           = (Reject message BAD_REQUEST, db))).
  { intros dto' -> Hvariants. rewrite with_default_categories.
    destruct (ProductController.check_categories categories dto) as [message|] eqn:Hcat.
    - right. right. split; [| by eexists].
      intros [_ Hok]. apply check_categories_None in Hok. congruence.
    - apply check_categories_None in Hcat. unfold ProductStore.create.
      case_decide as Hschema.
      + left. auto.
      + right. left. auto. }
  destruct (cp_variants dto) as [|v vs] eqn:Hvs.
  - apply Hstore; [| constructor]. unfold with_default. by rewrite Hvs.
  - destruct (ProductController.check_variants (v :: vs)) as [message|] eqn:Hcheck.
    + right. right. split; [| by eexists].
      intros [(_ & _ & _ & Hall) _]. rewrite Hvs in Hall.
      by apply check_variants_Some in Hcheck.
    + apply check_variants_None in Hcheck.
      apply Hstore; [| done]. unfold with_default. by rewrite Hvs.
Qed.


Lemma with_default_variants dto :
  request_ok dto →
  p_variants (product_of (with_default dto)) ≠ []
  ∧ Forall variant_ok (p_variants (product_of (with_default dto))).
Proof.
  intros (_ & (_ & Hpurchased & Hselling) & _ & Hall). unfold with_default.
  destruct (cp_variants dto) as [|v vs] eqn:Hvs; simpl.
  - split; [done |]. repeat constructor; simpl; done.
  - rewrite Hvs. done.
Qed.

(** Storing a product whose variants are in order keeps stocks and
    selling prices from being negative. *)
Lemma store_keeps_invariants db id p :
  Forall variant_ok (p_variants p) →
  (stock_nonneg db → stock_nonneg (set_products db (<[id := p]> (products db))))
  ∧ (prices_nonneg db → prices_nonneg (set_products db (<[id := p]> (products db)))).
Proof.
  intros Hall. split.
  - intros Hdb id' p' Hp. simpl in Hp.
    destruct (decide (id' = id)) as [->|Hid].
    + rewrite lookup_insert_eq in Hp. injection Hp as <-.
      eapply Forall_impl; [exact Hall |]. by intros v (_ & _ & ?).
    + rewrite lookup_insert_ne in Hp by done. by apply (Hdb id').
  - intros Hdb id' p' v Hp Hv. simpl in Hp.
    destruct (decide (id' = id)) as [->|Hid].
    + rewrite lookup_insert_eq in Hp. injection Hp as <-.
      destruct (p_variants p) as [|v0 vs]; [done |].
      injection Hv as ->. apply Forall_cons in Hall as [(_ & Hselling & _) _].
      by apply Qclt_le_weak.
    + rewrite lookup_insert_ne in Hp by done. by apply (Hdb id' p').
Qed.

(** X9. What a stored product looks like.  A product that
    [createProduct] has stored has at least one variant, and each of its
    variants has prices above 0 and a stock that is not negative; so the
    request keeps the database free of negative stocks and of negative
    selling prices, and it touches neither the other products nor the
    sales. *)
Theorem createProduct_keeps_invariants (newId : string) (dto : CreateProductDto)
  (db : Db) (p : Product) (db' : Db) :
  createProduct newId dto db = (Respond p, db') →
  (p_variants p ≠ [] ∧ Forall variant_ok (p_variants p))
  ∧ (stock_nonneg db → stock_nonneg db')
  ∧ (prices_nonneg db → prices_nonneg db')
  ∧ sales db' = sales db
  ∧ ∀ id, id ≠ newId → products db' !! id = products db !! id.
Proof.
  intros Hcreate.
  destruct (createProduct_cases newId dto db)
    as [(Hreq & Hcat & Hschema & Heq)|[(_ & _ & _ & Heq)|(_ & message & Heq)]];
    rewrite Heq in Hcreate; [| done | done].
  injection Hcreate as <- <-.
  destruct (with_default_variants dto Hreq) as [Hne Hall].
  split; [done |].
  destruct (store_keeps_invariants db newId _ Hall) as [Hstock Hprices].
  split; [done |]. split; [done |]. split; [done |].
  intros id Hid. simpl. by rewrite lookup_insert_ne.
Qed.


End products.

Section products_queries.
Import ProductService NewSaleController SalesReportService.

(** X11. What is listed and what can be sold.  [findAvailableProducts]
    lists the products with a variant in stock and writes nothing.  Every
    product of a line that passes the checks of [createSale] is listed; but
    a product whose first variant is sold out is listed as soon as another
    variant is in stock, and every sale of it is rejected for want of
    stock. *)
Theorem findAvailableProducts_and_createSale (db : Db) :
  ∃ listed,
    ProductStore.findAvailableProducts db = (Return listed, db)
    ∧ (∀ id p, listed !! id = Some p
               ↔ products db !! id = Some p ∧ ProductStore.in_stock p)
    ∧ (∀ l, line_ok db l → is_Some (listed !! l_productId l))
    ∧ (∀ id p v others,
         products db !! id = Some p →
         p_variants p = v :: others →
         (v_stock v ≤ 0)%Qc →
         Exists (λ v, (0 < v_stock v)%Qc) others →
         listed !! id = Some p
         ∧ ∀ q now customerName, (0 < q)%Qc →
             createSale (mkCreateSaleDto [mkSaleLine id q] customerName) now db
             = (Throw (HttpException
                         (InsufficientStock (p_name p) (v_stock v) q) BAD_REQUEST),
                db)).
Proof.
  eexists. split; [reflexivity |].
  assert (Hlisted : ∀ id p,
            filter (λ doc, ProductStore.in_stock (snd doc)) (products db) !! id
            = Some p
            ↔ products db !! id = Some p ∧ ProductStore.in_stock p)
    by (intros id p; apply map_lookup_filter_Some).
  split; [done |]. split.
  - intros l Hl. unfold line_ok in Hl.
    destruct (products db !! l_productId l) as [p|] eqn:Hp; [| done].
    destruct Hl as [Hq Hs]. exists p. apply Hlisted. split; [done |].
    unfold ProductStore.in_stock. unfold first_stock, normalize in Hs.
    destruct (p_variants p) as [|v others]; simpl in Hs; [exfalso; qc_lra |].
    apply Exists_cons_hd. qc_lra.
  - intros id p v others Hp Hvs Hv Hothers. split.
    + apply Hlisted. split; [done |]. unfold ProductStore.in_stock.
      rewrite Hvs. by apply Exists_cons_tl.
    + intros q now customerName Hq.
      unfold createSale, try_catch. cbn [dto_items]. unfold bind at 1.
      rewrite (process_items_first_failure db [] (mkSaleLine id q) []
                 (HttpException (InsufficientStock (p_name p) (v_stock v) q)
                                BAD_REQUEST));
        [done | constructor |].
      unfold line_error. cbn [l_quantity l_productId].
      rewrite decide_False by (by apply Qclt_not_le). rewrite Hp.
      assert (Hfirst : first_stock p = v_stock v)
        by (unfold first_stock, normalize; by rewrite Hvs).
      rewrite Hfirst. rewrite decide_True; [done | qc_lra].
Qed.

(** The tablet is listed, and not one tablet can be sold. *)
Lemma findAvailableProducts_tablet :
  ∃ listed,
    ProductStore.findAvailableProducts tablet_shop = (Return listed, tablet_shop)
    ∧ listed !! "t1" = Some tablet
    ∧ createSale (mkCreateSaleDto [mkSaleLine "t1" (num 1)] None) 0 tablet_shop
      = (Throw (HttpException (InsufficientStock "Tablet" (num 0) (num 1))
                              BAD_REQUEST),
         tablet_shop).
Proof.
  destruct (findAvailableProducts_and_createSale tablet_shop)
    as (listed & Hfind & _ & _ & Hsold_out).
  exists listed. split; [done |].
  destruct (Hsold_out "t1" tablet
              (mkVariant "grey-64" (Some "grey") None (Some "64GB")
                         (num 70) (num 90) (num 0))
              [mkVariant "grey-128" (Some "grey") None (Some "128GB")
                         (num 80) (num 100) (num 3)])
    as [Hlisted Hsale];
    [reflexivity | reflexivity | by vm_compute
     | apply Exists_cons_hd; by vm_compute |].
  split; [done |]. apply (Hsale (num 1) 0 None). by vm_compute.
Defined.


End products_queries.

(** ** Deleting a product and the product report *)

Section JSMap_without.
Context {K V : Type} `{EqDecision K} (gone : K).
Implicit Types (k : K) (v : V) (m : list (K * V)).

Local Abbreviation kept := (λ kv : K * V, kv.1 ≠ gone).

Lemma get_without k m : k ≠ gone → JSMap.get k (filter kept m) = JSMap.get k m.
Proof.
  intros Hk. induction m as [|[k' v'] m IH]; [done |].
  rewrite filter_cons. cbn [fst JSMap.get].
  destruct (decide (k' ≠ gone)) as [Hk'|Hk'].
  - cbn [JSMap.get]. by rewrite IH.
  - apply dec_stable in Hk'. subst k'. by rewrite decide_False.
Qed.

Lemma set_without_ne k v m :
  k ≠ gone → JSMap.set k v (filter kept m) = filter kept (JSMap.set k v m).
Proof.
  intros Hk. induction m as [|[k' v'] m IH].
  - cbn [JSMap.set]. rewrite filter_nil, filter_cons, filter_nil.
    by rewrite decide_True.
  - cbn [JSMap.set]. rewrite filter_cons. cbn [fst].
    destruct (decide (k = k')) as [<-|Hne].
    + rewrite decide_True by done. cbn [JSMap.set].
      rewrite decide_True by done. rewrite filter_cons. cbn [fst].
      by rewrite decide_True.
    + rewrite (filter_cons _ (k', v')). cbn [fst].
      destruct (decide (k' ≠ gone)) as [Hk'|Hk']; [| done].
      cbn [JSMap.set]. rewrite decide_False by done. by rewrite IH.
Qed.

Lemma set_without_eq v m : filter kept (JSMap.set gone v m) = filter kept m.
Proof.
  induction m as [|[k' v'] m IH].
  - cbn [JSMap.set]. rewrite filter_cons. cbn [fst]. by rewrite decide_False by tauto.
  - cbn [JSMap.set]. destruct (decide (gone = k')) as [<-|Hne].
    + rewrite !filter_cons. cbn [fst]. by rewrite !decide_False by tauto.
    + rewrite !filter_cons. cbn [fst]. by rewrite IH.
Qed.

End JSMap_without.

Section sort_filter.
Context {A : Type} (key : A → number) (P : A → Prop) `{!∀ a, Decision (P a)}.

Local Abbreviation by_key := (λ a b, (key b - key a)%Qc).

Lemma insert_first a l :
  Forall (λ c, (key c ≤ key a)%Qc) l → JSArray.insert by_key a l = a :: l.
Proof.
  destruct l as [|c l]; [done |]. intros Hall.
  apply Forall_cons in Hall as [Hc _]. cbn [JSArray.insert].
  rewrite decide_False; [done |]. rewrite comparefn_pos. by apply Qcle_not_lt.
Qed.

Lemma insert_filter a l :
  descending key l →
  filter P (JSArray.insert by_key a l)
  = if decide (P a) then JSArray.insert by_key a (filter P l) else filter P l.
Proof.
  unfold descending. induction l as [|b l IH]; intros Hl.
  - cbn [JSArray.insert]. rewrite filter_cons, filter_nil. by case_decide.
  - apply StronglySorted_inv in Hl as [Hl Hb]. cbn [JSArray.insert].
    destruct (decide (0 < key b - key a)%Qc) as [Hlt|Hge].
    + rewrite filter_cons, IH by done. rewrite (filter_cons _ b).
      destruct (decide (P a)) as [Ha|Ha], (decide (P b)) as [Hb'|Hb']; try done.
      cbn [JSArray.insert]. by rewrite decide_True.
    + rewrite (filter_cons _ a), !(filter_cons _ b).
      destruct (decide (P a)) as [Ha|Ha]; [| done].
      destruct (decide (P b)) as [Hb'|Hb'].
      * cbn [JSArray.insert]. by rewrite decide_False.
      * rewrite insert_first; [done |].
        assert (Hba : (key b ≤ key a)%Qc)
          by (apply Qcnot_lt_le; by rewrite <- comparefn_pos).
        apply list.Forall_forall. intros c Hc.
        apply list_elem_of_filter in Hc as [_ Hc].
        rewrite list.Forall_forall in Hb.
        apply Qcle_trans with (key b); [by apply Hb | done].
Qed.

(** Leaving elements out before or after sorting comes to the same. *)
Lemma sort_filter l :
  filter P (JSArray.sort by_key l) = JSArray.sort by_key (filter P l).
Proof.
  induction l as [|a l IH]; [done |]. cbn [JSArray.sort].
  rewrite insert_filter by apply sort_descending.
  rewrite filter_cons, IH. by case_decide.
Qed.

End sort_filter.

Section products_report.
Import ProductService NewSaleController SalesReportService.

Lemma count_item_without db id st item :
  count_item (set_products db (base.delete id (products db)))
             (filter (λ kv, kv.1 ≠ id) st) item
  = filter (λ kv, kv.1 ≠ id) (count_item db st item).
Proof.
  unfold count_item, populate. cbn [products set_products].
  destruct (decide (si_productId item = id)) as [Hid|Hid].
  - rewrite Hid, lookup_delete_eq.
    destruct (products db !! id); [| done]. by rewrite set_without_eq.
  - rewrite lookup_delete_ne by done.
    destruct (products db !! si_productId item) as [product|]; [| done].
    rewrite get_without by done. by rewrite set_without_ne.
Qed.

Lemma count_items_without db id items : ∀ st,
  fold_left (count_item (set_products db (base.delete id (products db)))) items
            (filter (λ kv, kv.1 ≠ id) st)
  = filter (λ kv, kv.1 ≠ id) (fold_left (count_item db) items st).
Proof.
  induction items as [|item items IH]; intros st; [done |].
  cbn [fold_left]. by rewrite count_item_without, IH.
Qed.

Lemma values_without id (m : list (string * ProductSalesReport)) :
  (∀ k r, (k, r) ∈ m → pr_productId r = k) →
  JSMap.values (filter (λ kv, kv.1 ≠ id) m)
  = filter (λ r, pr_productId r ≠ id) (JSMap.values m).
Proof.
  unfold JSMap.values. induction m as [|[k r] m IH]; intros Hids; [done |].
  assert (IH' := IH (λ k' r' Hin, Hids k' r' (list_elem_of_further _ _ _ Hin))).
  cbn [fmap list_fmap snd]. rewrite !filter_cons. cbn [fst].
  rewrite (Hids k r) by apply list_elem_of_here.
  case_decide; cbn [fmap list_fmap snd]; by rewrite IH'.
Qed.

(** X13. Deleting a product and the reports.  After a product is deleted
    the product report is the report of before without the row of that
    product: every other row is unchanged, and so is their order.  The
    overview still counts every sale and all of the revenue, and one
    product less. *)
Theorem deleteProduct_reports (db : Db) (id : string) (p : Product) :
  products db !! id = Some p →
  let db' := snd (ProductController.deleteProduct id db) in
  getProductSalesReport db'
  = filter (λ r, pr_productId r ≠ id) (getProductSalesReport db)
  ∧ ov_totalSales (getSalesOverview db') = ov_totalSales (getSalesOverview db)
  ∧ ov_totalRevenue (getSalesOverview db') = ov_totalRevenue (getSalesOverview db)
  ∧ S (ov_totalProducts (getSalesOverview db'))
    = ov_totalProducts (getSalesOverview db).
Proof.
  intros Hp db'.
  assert (Hdb' : db' = set_products db (base.delete id (products db))).
  { unfold db', ProductController.deleteProduct, ProductStore.delete.
    by rewrite Hp. }
  clearbody db'. subst db'.
  split; [| split; [done | split; [done |]]].
  - unfold getProductSalesReport.
    rewrite (sort_filter pr_totalRevenue (λ r, pr_productId r ≠ id)).
    f_equal. rewrite <- values_without.
    + f_equal. rewrite !product_stats_all_items.
      change (all_items (set_products db (base.delete id (products db))))
        with (all_items db).
      apply (count_items_without db id (all_items db) []).
    + intros k r Hin. by destruct (product_stats_entries db k r Hin) as [-> _].
  - unfold getSalesOverview. cbn [ov_totalProducts products set_products].
    rewrite map_size_delete_Some by done.
    assert (size (products db) ≠ 0%nat); [| lia].
    intros Hsize. apply map_size_empty_inv in Hsize. rewrite Hsize in Hp.
    by rewrite lookup_empty in Hp.
Qed.

(** The phone is taken off the list of the shop with the phone and the
    case: the report is left with the case. *)
Lemma deleteProduct_reports_example :
  let db' := snd (ProductController.deleteProduct "p1" busy_shop) in
  (getProductSalesReport db'
   = filter (λ r, pr_productId r ≠ "p1") (getProductSalesReport busy_shop)
   ∧ ov_totalSales (getSalesOverview db') = ov_totalSales (getSalesOverview busy_shop)
   ∧ ov_totalRevenue (getSalesOverview db')
     = ov_totalRevenue (getSalesOverview busy_shop)
   ∧ S (ov_totalProducts (getSalesOverview db'))
     = ov_totalProducts (getSalesOverview busy_shop))
  ∧ pr_productId <$> getProductSalesReport db' = ["p2"].
Proof.
  split; [| by vm_compute].
  apply (deleteProduct_reports busy_shop "p1" phone). reflexivity.
Defined.

End products_report.

Section products_examples.
Import ProductService NewSaleController.

(** The charger is stored in the shop with the phone. *)
Lemma createProduct_charger :
  ProductController.createProduct any_product phone_categories "p2" charger_request
    one_phone_shop
  = (Respond (product_of (with_default charger_request)),
     set_products one_phone_shop
       (<["p2" := product_of (with_default charger_request)]>
          (products one_phone_shop))).
Proof.
  destruct (createProduct_cases any_product phone_categories "p2" charger_request
              one_phone_shop)
    as [(_ & _ & _ & Heq)|[(_ & _ & Hschema & _)|(Hbad & _)]];
    [done | by destruct Hschema |].
  exfalso. apply Hbad. split.
  - unfold request_ok. simpl. repeat split; try done; try (by vm_compute); lia.
  - apply check_categories_None. by vm_compute.
Qed.

(** The charger in the shop with the phone. *)
Lemma createProduct_keeps_invariants_example :
  (p_variants (product_of (with_default charger_request)) ≠ []
   ∧ Forall variant_ok (p_variants (product_of (with_default charger_request))))
  ∧ (stock_nonneg one_phone_shop →
     stock_nonneg (set_products one_phone_shop
                     (<["p2" := product_of (with_default charger_request)]>
                        (products one_phone_shop))))
  ∧ (prices_nonneg one_phone_shop →
     prices_nonneg (set_products one_phone_shop
                      (<["p2" := product_of (with_default charger_request)]>
                         (products one_phone_shop))))
  ∧ sales (set_products one_phone_shop
             (<["p2" := product_of (with_default charger_request)]>
                (products one_phone_shop)))
    = sales one_phone_shop
  ∧ ∀ id, id ≠ "p2" →
      products (set_products one_phone_shop
                  (<["p2" := product_of (with_default charger_request)]>
                     (products one_phone_shop))) !! id
      = products one_phone_shop !! id.
Proof.
  apply (createProduct_keeps_invariants any_product phone_categories "p2"
           charger_request one_phone_shop).
  apply createProduct_charger.
Defined.


End products_examples.

(** * The text helpers of the receipt printer *)

Section receipt_text.
Import ReceiptText.

Lemma length_append (s1 s2 : string) :
  String.length (s1 +:+ s2) = (String.length s1 + String.length s2)%nat.
Proof. induction s1 as [|c s1 IH]; simpl; [done | by rewrite IH]. Qed.

Lemma length_spaces n : String.length (spaces n) = n.
Proof.
  induction n as [|n IH]; [done |].
  cbn [spaces]. rewrite length_append, IH. done.
Qed.




(** X15. Padding on the left.  [rightAlign] puts spaces before the text
    so that it is [width] characters long, and [centerText] puts half as
    many, rounded down, so that the margin left over on the right is the
    same or one more.  Neither appends anything, and neither cuts: a text
    longer than [width] is returned as it is. *)
Theorem rightAlign_centerText (text : string) (width : Z) :
  (∃ padding, rightAlign text width = spaces padding +:+ text
            ∧ len (rightAlign text width) = Z.max width (len text))
  ∧ (∃ leftPad, centerText text width = spaces leftPad +:+ text
              ∧ (len text ≤ width →
                 let right := width - len (centerText text width) in
                 Z.of_nat leftPad ≤ right ≤ Z.of_nat leftPad + 1))
  ∧ (width ≤ len text →
     rightAlign text width = text ∧ centerText text width = text).
Proof.
  unfold rightAlign, centerText. split; [| split].
  - eexists. split; [done |].
    unfold len. rewrite length_append, length_spaces. lia.
  - eexists. split; [done |]. intros Hfits. cbv zeta.
    unfold len in *. rewrite length_append, length_spaces.
    rewrite Z.max_r by lia.
    assert (0 ≤ (width - Z.of_nat (String.length text)) / 2)
      by (apply Z.div_pos; lia).
    rewrite Nat2Z.inj_add, Z2Nat.id by done.
    Z.div_mod_to_equations; lia.
  - intros Hlong. rewrite Z.max_l by lia. done.
Qed.

End receipt_text.

(** * Reports, continued *)

Section calendar_more.
Import JSDate.

Lemma MonthFromTime_range t : 0 ≤ MonthFromTime t ≤ 11.
Proof. unfold MonthFromTime, month_of_day. repeat case_match; lia. Qed.

(** The day of a time, from its year, month and date. *)
Lemma Day_of_fields t :
  Day t = DayFromYear (YearFromTime t)
          + month_start (MonthFromTime t) (leap_flag (YearFromTime t))
          + DateFromTime t - 1.
Proof. unfold DateFromTime, DayWithinYear, InLeapYear, leap_flag. lia. Qed.

(** Times with the same UTC date are times of the same day. *)
Lemma toISODate_Day t1 t2 : toISODate t1 = toISODate t2 → Day t1 = Day t2.
Proof.
  unfold toISODate. intros [= Hyear Hmonth Hdate].
  rewrite (Day_of_fields t1), (Day_of_fields t2), Hyear, Hdate.
  by replace (MonthFromTime t1) with (MonthFromTime t2) by lia.
Qed.

(** [setDate(getDate() + 1)] is the same time on the next day, in any
    time zone. *)
Lemma setDate_tomorrow tz t : setDate tz t (getDate tz t + 1) = t + msPerDay.
Proof.
  unfold setDate, getDate.
  rewrite MakeDay_in_year by apply MonthFromTime_range.
  rewrite (Z.add_comm (DateFromTime _) 1), Z.add_assoc.
  replace (DayFromYear (YearFromTime (LocalTime tz t))
           + month_start (MonthFromTime (LocalTime tz t))
               (leap_flag (YearFromTime (LocalTime tz t)))
           + 1 + DateFromTime (LocalTime tz t) - 1)
    with (Day (LocalTime tz t) + 1) by (rewrite (Day_of_fields (LocalTime tz t)); lia).
  unfold UTC, MakeDate, TimeWithinDay, Day, LocalTime, msPerDay.
  Z.div_mod_to_equations; lia.
Qed.

(** The first and the last instant of a month, in any time zone. *)
Lemma month_window tz year month :
  1 ≤ month ≤ 12 →
  new_Date tz year month 0 23 59 59 999
  = new_Date tz year (month - 1) 1 0 0 0 0
    + daysInMonth month (full_year year) * msPerDay - 1.
Proof.
  intros Hm. unfold new_Date. fold (full_year year).
  rewrite MakeDay_last by done.
  unfold UTC, MakeDate, MakeTime, msPerDay. lia.
Qed.

End calendar_more.

Section JSMap_sums.
Context {K V : Type} `{EqDecision K}.
Implicit Types (k : K) (v d : V) (m : list (K * V)).



End JSMap_sums.

Section monthly_any_zone.
Import JSDate SalesReportService.

(** The loop enters one day after the other. *)
Lemma fill_days_any tz start (n : nat) : ∀ k acc fuel,
  (n ≤ fuel)%nat →
  fill_days tz fuel (start + k * msPerDay)
            (start + (k + Z.of_nat n) * msPerDay - 1) acc
  = Some (fold_left (λ st i, JSMap.set (toISODate (start + i * msPerDay)) no_sales st)
                    (seqZ k (Z.of_nat n)) acc).
Proof.
  induction n as [|n IH]; intros k acc fuel Hfuel.
  - rewrite fill_days_unfold. rewrite (proj2 (Z.leb_gt _ _)) by (unfold msPerDay; lia).
    done.
  - rewrite fill_days_unfold. rewrite (proj2 (Z.leb_le _ _)) by (unfold msPerDay; lia).
    destruct fuel as [|fuel]; [lia |].
    rewrite setDate_tomorrow.
    replace (start + k * msPerDay + msPerDay) with (start + (k + 1) * msPerDay) by lia.
    replace (k + Z.of_nat (S n)) with (k + 1 + Z.of_nat n) by lia.
    rewrite IH by lia. rewrite (seqZ_cons k) by lia.
    replace (Z.succ k) with (k + 1) by lia.
    by replace (Z.pred (Z.of_nat (S n))) with (Z.of_nat n) by lia.
Qed.

(** Entering keys that are new appends them. *)
Lemma fold_set_fresh {I V : Type} (f : I → isodate) (v : V) (l : list I) : ∀ acc,
  NoDup (JSMap.keys acc ++ (f <$> l)) →
  fold_left (λ st i, JSMap.set (f i) v st) l acc = acc ++ ((λ i, (f i, v)) <$> l).
Proof.
  induction l as [|i l IH]; intros acc Hnodup; cbn [fold_left fmap list_fmap].
  - by rewrite app_nil_r.
  - cbn [fmap list_fmap] in Hnodup.
    apply NoDup_app in Hnodup as (Hacc & Hfresh & Hl).
    apply list.NoDup_cons in Hl as [Hi Hl].
    rewrite set_fresh by (intros Hin; apply (Hfresh _ Hin), list_elem_of_here).
    rewrite IH.
    + by rewrite <- app_assoc.
    + unfold JSMap.keys. rewrite fmap_app. cbn [fmap list_fmap fst].
      rewrite <- app_assoc. cbn [app]. apply NoDup_app. split; [done |].
      split; [| by apply list.NoDup_cons].
      intros d Hd Hin. by apply (Hfresh d Hd).
Qed.

Lemma entered_dates_NoDup start (n : Z) :
  NoDup ((λ i, toISODate (start + i * msPerDay)) <$> seqZ 0 n).
Proof.
  apply NoDup_fmap_2_strong; [| apply NoDup_seqZ].
  intros i j _ _ Heq. apply toISODate_Day in Heq.
  unfold Day, msPerDay in Heq.
  rewrite !Z.div_add in Heq by lia. lia.
Qed.




(** In any time zone the loop over the days of a month ends, and the
    report is made of the statistics of the month. *)
Lemma getMonthlySalesReport_any tz fuel month year db :
  1 ≤ month ≤ 12 →
  (31 ≤ fuel)%nat →
  getMonthlySalesReport tz fuel month year db
  = Some (mkMonthlySalesReport month year
            (length (month_sales tz month year db))
            (sum_total (month_sales tz month year db))
            (average (sum_total (month_sales tz month year db))
                     (month_sales tz month year db))
            ((λ '(date, stats), mkDailyStat date (ds_sales stats) (ds_revenue stats))
               <$> month_stats tz month year db)).
Proof.
  intros Hm Hfuel.
  pose proof (daysInMonth_pos month (full_year year)) as Hdays.
  unfold getMonthlySalesReport, month_stats, entered_stats, entered_dates.
  fold (month_sales tz month year db).
  rewrite month_window by done.
  set (start := new_Date tz year (month - 1) 1 0 0 0 0).
  set (dim := daysInMonth month (full_year year)) in *.
  pose proof (fill_days_any tz start (Z.to_nat dim) 0 [] fuel) as Hfill.
  rewrite Z2Nat.id in Hfill by lia.
  replace (start + 0 * msPerDay) with start in Hfill by lia.
  replace (start + (0 + dim) * msPerDay - 1) with (start + dim * msPerDay - 1)
    in Hfill by lia.
  rewrite Hfill by lia. clear Hfill.
  rewrite fold_set_fresh by apply entered_dates_NoDup. cbn [app].
  by rewrite <- list_fmap_compose.
Qed.




End monthly_any_zone.

Section monthly_and_daily.
Import JSDate SalesReportService.




(** The sales of the daily report, by their local date. *)
Lemma daily_sales_local tz date db :
  - msPerDay ≤ tz < msPerDay →
  valid_date date →
  dr_sales (getDailySalesReport tz date db)
  = filter (λ sale, toISODate (LocalTime tz (s_createdAt sale) + day_shift tz) = date)
           (sales db).
Proof.
  intros Htz Hvalid. unfold getDailySalesReport, find_between. cbn [dr_sales].
  apply list_filter_iff. intros sale.
  rewrite (toISODate_window date _ Hvalid). unfold day_shift, LocalTime.
  case_decide as Heast.
  - destruct (daily_window_east tz date) as [-> ->]; lia.
  - destruct (daily_window_west tz date) as [-> ->]; lia.
Qed.



End monthly_and_daily.

(** * Date ranges and analytics *)

Section date_range.
Import JSDate SalesReportService.

Lemma newest_first_trans : Transitive DateRange.newest_first.
Proof. unfold DateRange.newest_first. intros a b c ? ?. lia. Qed.

Lemma newest_first_total : Total DateRange.newest_first.
Proof. unfold DateRange.newest_first. intros a b. lia. Qed.

Lemma range_window tz startDate endDate :
  - msPerDay ≤ tz < msPerDay →
  setHours tz (parse startDate) 0 0 0 0 = parse startDate - day_shift tz - tz
  ∧ setHours tz (parse endDate) 23 59 59 999
    = parse endDate - day_shift tz - tz + (msPerDay - 1).
Proof.
  intros Htz. unfold day_shift. case_decide as Heast.
  - destruct (daily_window_east tz startDate) as [-> _]; [lia |].
    destruct (daily_window_east tz endDate) as [_ ->]; [lia |]. lia.
  - destruct (daily_window_west tz startDate) as [-> _]; [lia |].
    destruct (daily_window_west tz endDate) as [_ ->]; [lia |]. lia.
Qed.

Lemma getSalesByDateRange_sorted tz startDate endDate db :
  StronglySorted DateRange.newest_first
                 (DateRange.getSalesByDateRange tz startDate endDate db).
Proof.
  apply StronglySorted_merge_sort;
    [apply newest_first_trans | apply newest_first_total].
Qed.

(** X19. A range of days.  For a time zone within a day of UTC,
    [getSalesByDateRange] answers with the sales made from the first
    instant of the first day to the last millisecond of the last day, by
    the clock of the host (a day early west of UTC), newest first.  A
    range of one day has the sales of the daily report of that day, and a
    range that ends before it starts has none. *)
Theorem getSalesByDateRange_days (tz : Z) (startDate endDate : isodate) (db : Db) :
  - msPerDay ≤ tz < msPerDay →
  let result := DateRange.getSalesByDateRange tz startDate endDate db in
  result ≡ₚ range_sales tz startDate endDate db
  ∧ StronglySorted DateRange.newest_first result
  ∧ (startDate = endDate → result ≡ₚ dr_sales (getDailySalesReport tz startDate db))
  ∧ (parse endDate < parse startDate → result = []).
Proof.
  intros Htz result.
  destruct (range_window tz startDate endDate Htz) as [Hfrom Hto].
  assert (Hperm : result ≡ₚ range_sales tz startDate endDate db).
  { unfold result, DateRange.getSalesByDateRange.
    rewrite merge_sort_Permutation. unfold find_between, range_sales.
    rewrite Hfrom, Hto.
    erewrite list_filter_iff; [reflexivity |].
    intros sale. unfold LocalTime. simpl. lia. }
  split; [done |].
  split; [apply getSalesByDateRange_sorted |].
  split.
  - intros <-. unfold result, DateRange.getSalesByDateRange, getDailySalesReport.
    cbn [dr_sales]. apply merge_sort_Permutation.
  - intros Hends. apply Permutation_nil_r. rewrite Hperm.
    unfold range_sales. apply Permutation_nil_r.
    apply elem_of_nil_inv. intros sale Hsale.
    apply list_elem_of_filter in Hsale as [Hin _].
    unfold parse, MakeDate, msPerDay in *. lia.
Qed.

(** The two days of the shop with two sales, in Colombo. *)
Lemma getSalesByDateRange_days_example :
  let result := DateRange.getSalesByDateRange tz_colombo
                  (mkIsodate 2024 3 14) (mkIsodate 2024 3 15) two_day_shop in
  (result ≡ₚ range_sales tz_colombo (mkIsodate 2024 3 14) (mkIsodate 2024 3 15)
                two_day_shop
   ∧ StronglySorted DateRange.newest_first result
   ∧ (mkIsodate 2024 3 14 = mkIsodate 2024 3 15 →
      result ≡ₚ dr_sales (getDailySalesReport tz_colombo (mkIsodate 2024 3 14)
                            two_day_shop))
   ∧ (parse (mkIsodate 2024 3 15) < parse (mkIsodate 2024 3 14) → result = []))
  ∧ result = [sale_on_march_15; sale_on_march_14].
Proof.
  split; [| by vm_compute].
  apply (getSalesByDateRange_days tz_colombo (mkIsodate 2024 3 14)
           (mkIsodate 2024 3 15) two_day_shop).
  by vm_compute.
Defined.

End date_range.

Section analytics.
Import JSDate SalesReportService SalesReportController.

Lemma getMonth_range tz now : 1 ≤ getMonth tz now + 1 ≤ 12.
Proof. unfold getMonth. pose proof (MonthFromTime_range (LocalTime tz now)). lia. Qed.

Lemma month_before_range m y : 1 ≤ m ≤ 12 → 1 ≤ (month_before m y).1 ≤ 12.
Proof. unfold month_before. case_decide; simpl; lia. Qed.

(** [getAnalytics] has a result, made of the two monthly reports, the
    product report and the sales of the last thirty days. *)
Lemma getAnalytics_any tz fuel now db :
  (31 ≤ fuel)%nat →
  let month := getMonth tz now + 1 in
  let year := getFullYear tz now in
  let this := month_revenue tz month year db in
  let last := month_revenue tz (month_before month year).1 (month_before month year).2 db in
  getAnalytics tz fuel now db
  = Some (mkAnalytics this last
            (Math_round ((if decide (0 < last)%Qc then growth_percent this last
                          else 0%Qc) * num 100) / num 100)%Qc
            (take 5 (getProductSalesReport db))
            (slice_last 10 (thirty_days tz now db))).
Proof.
  intros Hfuel month year this last.
  pose proof (getMonth_range tz now) as Hmonth.
  pose proof (month_before_range month year Hmonth) as Hbefore.
  unfold getAnalytics. fold month year.
  assert (Hlast : (if decide (month = 1) then 12 else month - 1)
                  = (month_before month year).1)
    by (unfold month_before; by case_decide).
  assert (Hlast_year : (if decide (month = 1) then year - 1 else year)
                       = (month_before month year).2)
    by (unfold month_before; by case_decide).
  rewrite Hlast, Hlast_year.
  rewrite !getMonthlySalesReport_any by done.
  cbn [mr_totalRevenue]. rewrite !sum_total_revenue_sum.
  reflexivity.
Qed.

(** X20. The sales that [getAnalytics] calls recent.  [getAnalytics]
    has a result in any time zone.  Its [recentSales] are the last ten of
    the sales of the last thirty days in the order newest first (all of
    them if there are at most ten): no sale among them was made after any
    sale of the thirty days that is left out.  *)
Theorem getAnalytics_recentSales (tz : Z) (fuel : nat) (now : Z) (db : Db) :
  (31 ≤ fuel)%nat →
  ∃ a newer,
    getAnalytics tz fuel now db = Some a
    ∧ thirty_days tz now db = newer ++ an_recentSales a
    ∧ length (an_recentSales a) = (10 `min` length (thirty_days tz now db))%nat
    ∧ ∀ left_out kept, left_out ∈ newer → kept ∈ an_recentSales a →
        s_createdAt kept ≤ s_createdAt left_out.
Proof.
  intros Hfuel. rewrite getAnalytics_any by done.
  set (window := thirty_days tz now db).
  eexists _, (take (length window - 10) window). split; [reflexivity |].
  cbn [an_recentSales]. unfold slice_last.
  split; [by rewrite take_drop |].
  split; [rewrite length_drop; lia |].
  intros left_out kept Hleft Hkept.
  assert (Hsorted : StronglySorted DateRange.newest_first
                      (take (length window - 10) window
                       ++ drop (length window - 10) window)).
  { rewrite take_drop. apply getSalesByDateRange_sorted. }
  apply (StronglySorted_app_1_elem_of _ _ _ _ _ Hsorted Hleft Hkept).
Qed.

(** The shop with two sales, on 20 March 2024. *)
Lemma getAnalytics_recentSales_example :
  ∃ a newer,
    getAnalytics tz_utc 31 (parse (mkIsodate 2024 3 20)) two_day_shop = Some a
    ∧ thirty_days tz_utc (parse (mkIsodate 2024 3 20)) two_day_shop
      = newer ++ an_recentSales a
    ∧ length (an_recentSales a)
      = (10 `min` length (thirty_days tz_utc (parse (mkIsodate 2024 3 20))
                            two_day_shop))%nat
    ∧ ∀ left_out kept, left_out ∈ newer → kept ∈ an_recentSales a →
        s_createdAt kept ≤ s_createdAt left_out.
Proof.
  apply (getAnalytics_recentSales tz_utc 31 (parse (mkIsodate 2024 3 20))
           two_day_shop).
  lia.
Defined.









End analytics.

Section product_totals.
Import SalesReportService.








End product_totals.

(** * The shop as a whole *)

Section conservation.
Import ProductService NewSaleController SalesReportService.








End conservation.

Section shop.
Import ProductService NewSaleController.
Context (ProductSchema_valid : CreateProductDto → Prop)
        `{!∀ dto, Decision (ProductSchema_valid dto)}.
Context (categories : gmap string Category).






End shop.

Section shop_example.
Import ProductService NewSaleController.



End shop_example.

(** * Dates in calendar order *)

Section calendar_order.
Import JSDate SalesReportService.

Lemma DayFromYear_mono y1 y2 : y1 ≤ y2 → DayFromYear y1 ≤ DayFromYear y2.
Proof. intros Hy. unfold DayFromYear. Z.div_mod_to_equations; lia. Qed.

Lemma month_start_mono i j leap :
  0 ≤ i ≤ j → j ≤ 11 → 0 ≤ leap → month_start i leap ≤ month_start j leap.
Proof.
  intros Hi Hj Hleap.
  assert (i = 0 ∨ i = 1 ∨ i = 2 ∨ i = 3 ∨ i = 4 ∨ i = 5 ∨ i = 6 ∨ i = 7 ∨ i = 8
          ∨ i = 9 ∨ i = 10 ∨ i = 11) as Hi' by lia.
  assert (j = 0 ∨ j = 1 ∨ j = 2 ∨ j = 3 ∨ j = 4 ∨ j = 5 ∨ j = 6 ∨ j = 7 ∨ j = 8
          ∨ j = 9 ∨ j = 10 ∨ j = 11) as Hj' by lia.
  destruct_or!; subst; simpl; lia.
Qed.

Lemma leap_flag_range y : 0 ≤ leap_flag y ≤ 1.
Proof. unfold leap_flag. case_match; lia. Qed.

(** The midnight that a date string stands for, by its day number. *)
Lemma parse_day d :
  valid_date d →
  parse d = (first_day (iso_year d) (iso_month d) + iso_day d - 1) * msPerDay
  ∧ DayFromYear (iso_year d)
    ≤ first_day (iso_year d) (iso_month d) + iso_day d - 1
    < DayFromYear (iso_year d + 1).
Proof.
  destruct d as [y m day]. unfold valid_date. simpl. intros [Hm Hday].
  split.
  - unfold parse, MakeDate. simpl. rewrite MakeDay_in_year by lia.
    unfold first_day. lia.
  - destruct (month_of_day_start m y (day - 1) Hm ltac:(lia)) as [_ Hin].
    rewrite DayFromYear_succ. unfold first_day. lia.
Qed.

(** A date that comes earlier in the calendar stands for an earlier
    midnight. *)
Lemma parse_lt a b :
  valid_date a → valid_date b → isodate_lt a b → parse a < parse b.
Proof.
  intros Ha Hb Hlt.
  destruct (parse_day a Ha) as [-> Hina]. destruct (parse_day b Hb) as [-> Hinb].
  destruct a as [ya ma da], b as [yb mb db]. unfold valid_date, isodate_lt in *.
  simpl in *.
  assert (first_day ya ma + da - 1 < first_day yb mb + db - 1);
    [| unfold msPerDay; lia].
  destruct Hlt as [Hy|[-> [Hm|[-> Hd]]]].
  - pose proof (DayFromYear_mono (ya + 1) yb ltac:(lia)). lia.
  - pose proof (month_start_next ma yb ltac:(lia)) as Hnext.
    pose proof (month_start_mono ma (mb - 1) (leap_flag yb) ltac:(lia) ltac:(lia)
                  (proj1 (leap_flag_range yb))) as Hmono.
    unfold first_day. lia.
  - lia.
Qed.

Lemma isodate_trichotomy a b : isodate_lt a b ∨ a = b ∨ isodate_lt b a.
Proof.
  destruct a as [ya ma da], b as [yb mb db]. unfold isodate_lt. simpl.
  destruct (Z.lt_trichotomy ya yb) as [?|[->|?]]; [tauto | | tauto].
  destruct (Z.lt_trichotomy ma mb) as [?|[->|?]]; [tauto | | tauto].
  destruct (Z.lt_trichotomy da db) as [?|[->|?]]; tauto.
Qed.

Lemma parse_lt_iff a b :
  valid_date a → valid_date b → parse a < parse b ↔ isodate_lt a b.
Proof.
  intros Ha Hb. split; [| by apply parse_lt].
  intros Hlt. destruct (isodate_trichotomy a b) as [?|[->|Hba]]; [done | lia |].
  pose proof (parse_lt b a Hb Ha Hba). lia.
Qed.

(** X27. The answers of the date-range route.  A request without a start
    or an end date is answered with 400, and so is one with a date that
    cannot be read.  For two dates that exist, the request is answered
    with 400 exactly when the end date comes before the start date in the
    calendar; the same date twice is accepted, and the answer is then what
    the service finds for that range. *)
Theorem getSalesByDateRange_answers (tz : Z) (startDate endDate : DateParam)
  (db : Db) :
  (startDate = NoDate ∨ endDate = NoDate →
   SalesReportController.getSalesByDateRange tz startDate endDate db
   = Reject "Start date and end date are required" BAD_REQUEST)
  ∧ (startDate ≠ NoDate → endDate ≠ NoDate →
     startDate = BadDate ∨ endDate = BadDate →
     SalesReportController.getSalesByDateRange tz startDate endDate db
     = Reject "Invalid date format. Use YYYY-MM-DD" BAD_REQUEST)
  ∧ (∀ s e, startDate = IsoDate s → endDate = IsoDate e →
       valid_date s → valid_date e →
       SalesReportController.getSalesByDateRange tz startDate endDate db
       = if decide (isodate_lt e s)
         then Reject "Start date must be before end date" BAD_REQUEST
         else Respond (DateRange.getSalesByDateRange tz s e db)).
Proof.
  unfold SalesReportController.getSalesByDateRange.
  split; [| split].
  - intros [-> | ->]; [done | by destruct startDate].
  - intros Hs He [-> | ->]; [by destruct endDate | by destruct startDate].
  - intros s e -> -> Hs He.
    destruct (decide (parse e < parse s)) as [Hlt|Hge].
    + rewrite decide_True; [done | by apply parse_lt_iff].
    + rewrite decide_False; [done |]. by rewrite <- parse_lt_iff.
Qed.

End calendar_order.

(** * Every time has a date *)

Section dates_of_times.
Import JSDate SalesReportService.

(** [YearFromDay] finds the year of every day. *)
Lemma YearFromDay_spec d :
  DayFromYear (YearFromDay d) ≤ d < DayFromYear (YearFromDay d + 1).
Proof.
  set (e := 1970 + 400 * d / 146097).
  pose proof (DayFromYear_linear (e - 1)) as Hlow.
  pose proof (DayFromYear_linear (e + 2)) as Hhigh.
  assert (Hfloor : 146097 * (e - 1970) ≤ 400 * d < 146097 * (e - 1970) + 146097)
    by (subst e; Z.div_mod_to_equations; lia).
  assert (Hd : DayFromYear (e - 1) ≤ d < DayFromYear (e + 2)) by lia.
  assert (Hy : ∃ y, DayFromYear y ≤ d < DayFromYear (y + 1)).
  { destruct (decide (d < DayFromYear e)) as [He|He].
    - exists (e - 1). replace (e - 1 + 1) with e by lia. lia.
    - destruct (decide (d < DayFromYear (e + 1))) as [He'|He'].
      + exists e. lia.
      + exists (e + 1). replace (e + 1 + 1) with (e + 2) by lia. lia. }
  destruct Hy as [y Hy]. by rewrite (YearFromDay_unique y d Hy).
Qed.

Lemma DayWithinYear_range t : 0 ≤ DayWithinYear t < DaysInYear (YearFromTime t).
Proof.
  unfold DayWithinYear, YearFromTime.
  pose proof (YearFromDay_spec (Day t)) as Hspec.
  rewrite DayFromYear_succ in Hspec. lia.
Qed.

(** The day within the year lies in the month that [month_of_day] finds. *)
Lemma month_of_day_range d y :
  0 ≤ d < DaysInYear y →
  let m := month_of_day d (leap_flag y) in
  0 ≤ m ≤ 11
  ∧ month_start m (leap_flag y) ≤ d
    < month_start m (leap_flag y) + daysInMonth (m + 1) y.
Proof.
  intros Hd. rewrite year_length in Hd.
  unfold month_of_day, daysInMonth, leap_flag in *.
  destruct (DaysInYear y =? 366); simpl in Hd |- *;
    repeat (case_match; simpl);
    rewrite ?Z.ltb_lt, ?Z.ltb_ge in *; lia.
Qed.

(** The UTC date of a time is a date of the calendar, and read back it is
    the midnight of the day of that time. *)
Lemma toISODate_valid t :
  valid_date (toISODate t) ∧ parse (toISODate t) = Day t * msPerDay.
Proof.
  pose proof (DayWithinYear_range t) as Hrange.
  pose proof (month_of_day_range _ _ Hrange) as [Hmonth Hin].
  assert (Hleap : InLeapYear t = leap_flag (YearFromTime t)) by done.
  assert (Hvalid : valid_date (toISODate t)).
  { unfold valid_date, toISODate. simpl.
    unfold DateFromTime, MonthFromTime. rewrite Hleap. lia. }
  split; [done |].
  destruct (parse_day _ Hvalid) as [-> _]. f_equal.
  rewrite (Day_of_fields t). unfold toISODate, first_day. simpl.
  replace (MonthFromTime t + 1 - 1) with (MonthFromTime t) by lia. lia.
Qed.

(** The times with the UTC date of [t] are the times of the day of [t]. *)
Lemma toISODate_same_day t t' : toISODate t' = toISODate t ↔ Day t' = Day t.
Proof.
  destruct (toISODate_valid t) as [Hvalid Hparse].
  rewrite (toISODate_window _ _ Hvalid), Hparse. rewrite Day_window. done.
Qed.

End dates_of_times.

Section sales_in_reports.
Import JSDate SalesReportService NewSaleController.

(** The sales of the daily report of the UTC date of [now]. *)
Lemma daily_sales_today tz now db :
  - msPerDay ≤ tz < msPerDay →
  dr_sales (getDailySalesReport tz (toISODate now) db)
  = filter (λ sale, Day (LocalTime tz (s_createdAt sale) + day_shift tz) = Day now)
           (sales db).
Proof.
  intros Htz. destruct (toISODate_valid now) as [Hvalid _].
  rewrite daily_sales_local by done.
  apply list_filter_iff. intros sale. apply toISODate_same_day.
Qed.

Lemma same_day_east tz now :
  0 ≤ tz < msPerDay →
  Day (LocalTime tz now + day_shift tz) = Day now
  ↔ TimeWithinDay now + tz < msPerDay.
Proof.
  intros Htz. unfold day_shift. rewrite decide_True by lia.
  unfold Day, TimeWithinDay, LocalTime, msPerDay in *.
  split; intros H; Z.div_mod_to_equations; lia.
Qed.

(** X28. The daily report of today.  Without a date the daily route
    reports on the UTC date of the request.  For a time zone within a day
    of UTC the report then has, in the order of the collection, the sales
    whose local time (plus a day west of UTC) falls on the UTC day of the
    request.  So at UTC or east of it a sale made at the very time of the
    request is in the report exactly when the local date has not yet
    moved on from the UTC date.  With a date the route reports on that
    date. *)
Theorem getDailySalesReport_today (tz now : Z) (db : Db) :
  - msPerDay ≤ tz < msPerDay →
  let r := SalesReportController.getDailySalesReport tz now None db in
  dr_date r = toISODate now
  ∧ dr_sales r
    = filter (λ sale, Day (LocalTime tz (s_createdAt sale) + day_shift tz) = Day now)
             (sales db)
  ∧ (0 ≤ tz → ∀ sale, sale ∈ sales db → s_createdAt sale = now →
       (sale ∈ dr_sales r ↔ TimeWithinDay now + tz < msPerDay))
  ∧ ∀ date, SalesReportController.getDailySalesReport tz now (Some date) db
            = getDailySalesReport tz date db.
Proof.
  intros Htz r. unfold r, SalesReportController.getDailySalesReport.
  split; [done |]. rewrite daily_sales_today by done.
  split; [done |]. split; [| done].
  intros Heast sale Hin Hnow. rewrite list_elem_of_filter, Hnow.
  rewrite same_day_east by lia. tauto.
Qed.

(** In Colombo, a report asked for at 22:00 UTC on 14 March 2024, which is
    03:30 on the 15th there. *)
Lemma getDailySalesReport_today_example :
  let now := parse (mkIsodate 2024 3 14) + 22 * 3600000 in
  let r := SalesReportController.getDailySalesReport tz_colombo now None
             two_day_shop in
  dr_date r = toISODate now
  ∧ dr_sales r
    = filter (λ sale, Day (LocalTime tz_colombo (s_createdAt sale)
                           + day_shift tz_colombo) = Day now)
             (sales two_day_shop)
  ∧ (0 ≤ tz_colombo → ∀ sale, sale ∈ sales two_day_shop → s_createdAt sale = now →
       (sale ∈ dr_sales r ↔ TimeWithinDay now + tz_colombo < msPerDay))
  ∧ ∀ date, SalesReportController.getDailySalesReport tz_colombo now (Some date)
              two_day_shop
            = getDailySalesReport tz_colombo date two_day_shop.
Proof.
  apply (getDailySalesReport_today tz_colombo
           (parse (mkIsodate 2024 3 14) + 22 * 3600000) two_day_shop).
  by vm_compute.
Defined.




End sales_in_reports.

(** * The days of the monthly report, west and east of UTC *)

Section entered_days.
Import JSDate SalesReportService.






End entered_days.
